(** * Job-analyser: the listing inference core of [JobProcessor]

    A shallow embedding of [src/processor/job_processor.py]: the salary
    parser [analyze_salary_range], the work-type classifier
    [detect_work_type], the skill extractor [extract_skills] and the
    aggregations [get_skill_trends] and [get_salary_insights]; then the
    other aggregations [filter_jobs_by_work_type],
    [get_work_type_distribution] and [get_location_trends], and, from the
    scrapers and the dashboard, [_normalize_job_data], [_build_search_url]
    and the salary line of [display_insights].

    Modelling conventions.
    - Python [str] values are [string]s whose characters are the code points
      below 256 (Latin-1); on these the case mapping, the white space and
      the decimal digits are those of Python.
    - Python [float] values are IEEE 754 binary64 numbers, given by the
      rational they denote ([Q], kept in lowest terms); every operation
      rounds its exact result to the nearest double, ties to even.
    - A value stored in a listing is [None], an [int], a [str] or another
      object, of which only the truth value and [str()] matter.
    - A Python [dict] with string keys is a [gmap string _]; a dict that is
      iterated over is an association list in insertion order.
    - Code under [try]/[except] lives in the error monad [result]. *)

From Stdlib Require Import ZArith QArith Qround Qpower Qminmax Lqa Lia.
From Stdlib Require Import List Ascii String Bool.
From Stdlib Require Import Sorting.Sorted Sorting.Permutation.
From stdpp Require Import gmap strings pretty.

Local Open Scope string_scope.
Local Open Scope Z_scope.

(** ** Python strings *)

Module PyStr.

(** The upper-case letters: A-Z and, in the upper half, U+00C0-U+00DE
    without the multiplication sign U+00D7. *)
Definition is_upper (c : ascii) : bool :=
  let n := nat_of_ascii c in
  ((65 <=? n)%nat && (n <=? 90)%nat)
  || ((192 <=? n)%nat && (n <=? 222)%nat && negb (n =? 215)%nat).

Definition lower_char (c : ascii) : ascii :=
  if is_upper c then ascii_of_nat (nat_of_ascii c + 32) else c.

(** [s.lower()] *)
Fixpoint lower (s : string) : string :=
  match s with
  | EmptyString => EmptyString
  | String c s' => String (lower_char c) (lower s')
  end.

(** The characters [str.strip()] removes: tab, line feed, vertical tab,
    form feed, carriage return, the four separators 0x1C-0x1F, space, next
    line U+0085 and no-break space U+00A0. *)
Definition is_space (c : ascii) : bool :=
  let n := nat_of_ascii c in
  ((9 <=? n)%nat && (n <=? 13)%nat) || ((28 <=? n)%nat && (n <=? 32)%nat)
  || (n =? 133)%nat || (n =? 160)%nat.

Fixpoint lstrip (s : string) : string :=
  match s with
  | EmptyString => EmptyString
  | String c s' => if is_space c then lstrip s' else s
  end.

Fixpoint rstrip (s : string) : string :=
  match s with
  | EmptyString => EmptyString
  | String c s' =>
      match rstrip s' with
      | EmptyString => if is_space c then EmptyString else String c EmptyString
      | r => String c r
      end
  end.

(** [s.strip()] *)
Definition strip (s : string) : string := rstrip (lstrip s).

(** [s.startswith(p)] *)
Fixpoint startswith (p s : string) : bool :=
  match p, s with
  | EmptyString, _ => true
  | String _ _, EmptyString => false
  | String a p', String b s' => if Ascii.eqb a b then startswith p' s' else false
  end.

(** [sub in s] *)
Fixpoint contains (sub s : string) : bool :=
  startswith sub s ||
  match s with
  | EmptyString => false
  | String _ s' => contains sub s'
  end.

(** [s.replace(old, new)] for a non-empty [old]: occurrences are replaced
    from left to right and do not overlap.  [skip] counts the characters of
    the occurrence just replaced that are still to be dropped. *)
Fixpoint replace_from (skip : nat) (old new s : string) : string :=
  match s with
  | EmptyString => EmptyString
  | String c s' =>
      match skip with
      | S k => replace_from k old new s'
      | O =>
          if startswith old s
          then new ++ replace_from (String.length old - 1) old new s'
          else String c (replace_from O old new s')
      end
  end.

Definition replace (old new s : string) : string := replace_from O old new s.

(** The characters the pattern [\d] matches: below 256 the only decimal
    digits are 0-9. *)
Definition is_digit (c : ascii) : bool :=
  let n := nat_of_ascii c in (48 <=? n)%nat && (n <=? 57)%nat.

(** The longest prefix of digits, and what follows it. *)
Fixpoint span_digits (s : string) : string * string :=
  match s with
  | EmptyString => (EmptyString, EmptyString)
  | String c s' =>
      if is_digit c
      then let '(d, r) := span_digits s' in (String c d, r)
      else (EmptyString, s)
  end.

End PyStr.

(** ** Exceptions *)

Inductive exn : Type :=
  | ValueError
  | AttributeError
  | KeyError
  | IndexError.

Inductive result (A : Type) : Type :=
  | Ok (a : A)
  | Raise (e : exn).
Arguments Ok {A} a.
Arguments Raise {A} e.

#[global] Instance result_ret : MRet result := fun _ a => Ok a.
#[global] Instance result_bind : MBind result := fun _ _ f m =>
  match m with
  | Ok a => f a
  | Raise e => Raise e
  end.

(** [[f(x) for x in l]] where [f] may raise: the first exception wins. *)
Fixpoint comprehension {A B : Type} (f : A -> result B) (l : list A) : result (list B) :=
  match l with
  | [] => Ok []
  | x :: l' => y ← f x; ys ← comprehension f l'; Ok (y :: ys)
  end.

(** ** Python floats and the built-ins used on them *)

Module PyNum.

(** Nearest integer, ties to even. *)
Definition round_half_even (x : Q) : Z :=
  let f := Qfloor x in
  match (x - inject_Z f ?= 1 # 2)%Q with
  | Lt => f
  | Gt => f + 1
  | Eq => if Z.even f then f else f + 1
  end.

(** The exponent [e] with [2 ^ e <= x < 2 ^ (e + 1)], for [x > 0]. *)
Definition binade (x : Q) : Z :=
  let e := Z.log2 (Qnum x) - Z.log2 (Zpos (Qden x)) in
  if Qle_bool (2 ^ e) x then e else e - 1.

(** The double nearest to [x > 0], ties to the even significand: 53 bits
    from the binade of [x] on, or from the smallest normal binade on for
    the subnormal numbers. *)
Definition round_magnitude (x : Q) : Q :=
  let e := Z.max (binade x) (-1022) in
  Qred (inject_Z (round_half_even (x * 2 ^ (52 - e))) * 2 ^ (e - 52)).

(** The double nearest to [x].  The exponent is not bounded above here;
    where a result can exceed the largest double, [overflow] follows. *)
Definition round_binary64 (x : Q) : Q :=
  match Qnum x with
  | Z0 => 0%Q
  | Zpos _ => round_magnitude x
  | Zneg _ => (- round_magnitude (- x))%Q
  end.

(** A float that is not negative: a finite double or [inf].  No float of
    this program is negative or a NaN. *)
Inductive pyfloat : Type :=
  | Finite (x : Q)
  | Infinity.

(** A rounded result from [2 ^ 1024] on is [inf]. *)
Definition overflow (x : Q) : pyfloat :=
  if Qle_bool (2 ^ 1024) x then Infinity else Finite x.

(** [x * y], [x + y] and [x / y] on finite doubles whose result is finite,
    as it is for all salaries inside the annual range. *)
Definition fmul (x y : Q) : Q := round_binary64 (x * y).
Definition fadd (x y : Q) : Q := round_binary64 (x + y).
Definition fdiv (x y : Q) : Q := round_binary64 (x / y).

(** The double an [int] is converted to when it meets a float. *)
Definition of_int (z : Z) : Q := round_binary64 (inject_Z z).

(** The double a decimal literal of the source denotes. *)
Definition literal (q : Q) : Q := round_binary64 q.

(** [a * y] for a finite [y > 0], where the product may overflow. *)
Definition scale (a : pyfloat) (y : Q) : pyfloat :=
  match a with
  | Finite x => overflow (fmul x y)
  | Infinity => Infinity
  end.

(** [round(x, 2)]: the decimal with two places nearest to the value of
    the double [x], ties to even, converted back to a double. *)
Definition round2 (x : Q) : Q :=
  round_binary64 (inject_Z (round_half_even (x * 100)) / 100).

Definition digit_value (c : ascii) : Z := Z.of_nat (nat_of_ascii c) - 48.

(** The value of a string of decimal digits, [acc] being the value of the
    digits already read. *)
Fixpoint digits_value (acc : Z) (s : string) : Z :=
  match s with
  | EmptyString => acc
  | String c s' => digits_value (10 * acc + digit_value c) s'
  end.

Fixpoint all_digits (s : string) : bool :=
  match s with
  | EmptyString => true
  | String c s' => PyStr.is_digit c && all_digits s'
  end.

Definition nonempty (s : string) : bool :=
  match s with EmptyString => false | _ => true end.

(** [float(s)] on the decimal literals [digits] and [digits.digits], the
    only spellings the salary pattern can produce: the double nearest to
    the decimal, or [inf]; every other string is rejected with
    [ValueError]. *)
Definition py_float (s : string) : result pyfloat :=
  let '(d, r) := PyStr.span_digits s in
  if nonempty d then
    match r with
    | EmptyString => Ok (overflow (round_binary64 (inject_Z (digits_value 0 d))))
    | String "."%char f =>
        if nonempty f && all_digits f
        then Ok (overflow (round_binary64
                   (Qmake (digits_value 0 (d ++ f))
                          (Pos.pow 10 (Pos.of_nat (String.length f))))))
        else Raise ValueError
    | _ => Raise ValueError
    end
  else Raise ValueError.

(** [min(l)]: the first smallest element; [ValueError] on an empty list. *)
Definition py_min (l : list Q) : result Q :=
  match l with
  | [] => Raise ValueError
  | x :: l' => Ok (fold_left (fun m y => if Qlt_le_dec y m then y else m) l' x)
  end.

(** [max(l)]: the first largest element; [ValueError] on an empty list. *)
Definition py_max (l : list Q) : result Q :=
  match l with
  | [] => Raise ValueError
  | x :: l' => Ok (fold_left (fun m y => if Qlt_le_dec m y then y else m) l' x)
  end.

(** [sum(l)] as CPython computes it up to version 3.11: the additions are
    made from left to right, each of them rounded.  Later versions
    compensate the rounding errors, so [get_salary_insights] takes the
    built-in as a parameter and this function is one instance of it. *)
Definition py_sum (l : list Q) : Q := fold_left fadd l 0%Q.

(** [sorted(l)]: a stable insertion sort. *)
Fixpoint insert_sorted (x : Q) (l : list Q) : list Q :=
  match l with
  | [] => [x]
  | y :: l' => if Qle_bool x y then x :: l else y :: insert_sorted x l'
  end.

Definition py_sorted (l : list Q) : list Q := fold_right insert_sorted [] l.

End PyNum.

(** ** The salary pattern [\d+(?:\.\d+)?] *)

Module SalaryPattern.

(** The match of the pattern at the start of [s], if any: a maximal run
    of digits, then a dot and a maximal run of digits when both follow. *)
Definition match_here (s : string) : option string :=
  let '(d, r) := PyStr.span_digits s in
  if PyNum.nonempty d then
    match r with
    | String "."%char r' =>
        let '(f, _) := PyStr.span_digits r' in
        if PyNum.nonempty f then Some (d ++ "." ++ f) else Some d
    | _ => Some d
    end
  else None.

(** [re.findall(pattern, s)]: matches are searched from left to right
    and do not overlap; [skip] counts the characters of the last match
    still to be passed over. *)
Fixpoint findall_from (skip : nat) (s : string) : list string :=
  match s with
  | EmptyString => []
  | String _ s' =>
      match skip with
      | S k => findall_from k s'
      | O =>
          match match_here s with
          | Some m => m :: findall_from (String.length m - 1) s'
          | None => findall_from O s'
          end
      end
  end.

Definition findall (s : string) : list string := findall_from O s.

End SalaryPattern.

(** ** Python values stored in a listing *)

(** [PyOther] stands for any other object a record can hold (a [bool], a
    [float], a [list], a [dict], ...): the code only tests its truth value
    and takes its [str()], and it has none of the methods of [str]. *)
Inductive pyval : Type :=
  | PyNone
  | PyInt (z : Z)
  | PyString (s : string)
  | PyOther (truth : bool) (text : string).

(** Truth value of an object: [None], [0] and [''] are false. *)
Definition truthy (v : pyval) : bool :=
  match v with
  | PyNone => false
  | PyInt z => negb (z =? 0)
  | PyString s => PyNum.nonempty s
  | PyOther truth _ => truth
  end.

(** [str(v)] *)
Definition py_str (v : pyval) : string :=
  match v with
  | PyNone => "None"
  | PyInt z => pretty z
  | PyString s => s
  | PyOther _ text => text
  end.

(** ** [analyze_salary_range]

    The class defines the method twice; the second definition replaces the
    first, so the second one is the method of every [JobProcessor]. *)

Record SalaryEstimate : Type := mkEstimate {
  min_salary : Q;
  max_salary : Q;
  average_salary : Q
}.

Definition zero_estimate : SalaryEstimate := mkEstimate 0 0 0.

(** The marker tables, in the insertion order of the source dicts. *)
Definition multipliers : list (string * Z) :=
  [ ("k", 1000); ("m", 1000000); ("thousand", 1000); ("million", 1000000);
    ("yr", 1); ("year", 1); ("annual", 1) ].

Definition time_multipliers : list (string * Z) :=
  [ ("/hr", 2080); ("per hour", 2080); ("hourly", 2080);
    ("/day", 260); ("per day", 260); ("daily", 260);
    ("/wk", 52); ("per week", 52); ("weekly", 52);
    ("/mo", 12); ("per month", 12); ("monthly", 12) ].

(** The two marker loops: the first key of [table] that occurs in
    [cleaned] sets the multiplier and is deleted from the text; without any,
    the multiplier stays 1 and the text is unchanged. *)
Fixpoint apply_marker (table : list (string * Z)) (cleaned : string) : Z * string :=
  match table with
  | [] => (1, cleaned)
  | (key, mult) :: table' =>
      if PyStr.contains key cleaned
      then (mult, PyStr.replace key "" cleaned)
      else apply_marker table' cleaned
  end.

(** Cleaning and normalization of the raw text. *)
Definition clean (salary_text : string) : string :=
  let cleaned := PyStr.strip (PyStr.lower salary_text) in
  let cleaned := PyStr.replace "," "" (PyStr.replace "$" "" cleaned) in
  PyStr.replace "us" "" (PyStr.replace "usd" "" cleaned).

(** [10000 <= n <= 1000000]: a float is compared with an [int] exactly. *)
Definition in_salary_range (n : Q) : bool :=
  Qle_bool (inject_Z 10000) n && Qle_bool n (inject_Z 1000000).

(** [[n for n in numbers if 10000 <= n <= 1000000]]: the floats that pass
    are finite. *)
Definition annual_salaries (numbers : list PyNum.pyfloat) : list Q :=
  flat_map (fun n =>
    match n with
    | PyNum.Finite x => if in_salary_range x then [x] else []
    | PyNum.Infinity => []
    end) numbers.

(** [float(n) * magnitude_multiplier * time_multiplier] *)
Definition annual_figure (magnitude_multiplier time_multiplier : Z) (n : string)
  : result PyNum.pyfloat :=
  x ← PyNum.py_float n;
  Ok (PyNum.scale (PyNum.scale x (PyNum.of_int magnitude_multiplier))
                  (PyNum.of_int time_multiplier)).

(** The annual figures the text yields: every number of the text left after
    both markers are deleted, times both multipliers, kept when it lies in
    the annual salary range. *)
Definition salary_numbers (salary_text : string) : result (list Q) :=
  let cleaned := clean salary_text in
  let '(time_multiplier, cleaned) := apply_marker time_multipliers cleaned in
  let '(magnitude_multiplier, cleaned) := apply_marker multipliers cleaned in
  let raw_numbers := SalaryPattern.findall cleaned in
  numbers ← comprehension (annual_figure magnitude_multiplier time_multiplier) raw_numbers;
  Ok (annual_salaries numbers).

(** The body of the [try] block; [None] stands for falling out of the block
    without a [return]. *)
Definition analyze_salary_range_try (salary_text : pyval) : result (option SalaryEstimate) :=
  match salary_text with
  | PyString text =>
      if PyNum.nonempty text then
        numbers ← salary_numbers text;
        if (2 <=? length numbers)%nat then
          min_sal ← PyNum.py_min numbers;
          max_sal ← PyNum.py_max numbers;
          Ok (Some (mkEstimate
                (PyNum.round2 min_sal)
                (PyNum.round2 max_sal)
                (PyNum.round2 (PyNum.fdiv (PyNum.fadd min_sal max_sal) (PyNum.of_int 2)))))
        else
          match numbers with
          | [salary] =>
              Ok (Some (mkEstimate
                    (PyNum.round2 (PyNum.fmul salary (PyNum.literal (9 # 10))))
                    (PyNum.round2 (PyNum.fmul salary (PyNum.literal (11 # 10))))
                    (PyNum.round2 salary)))
          | _ => Ok None
          end
      else Ok (Some zero_estimate)
  | _ => Ok (Some zero_estimate)
  end.

(** What follows the [try] block: an exception of the block is reported and
    swallowed, and control then reaches the final [return] of the zero
    estimate, as it does when the block ends without returning. *)
Definition except_zero_estimate (block : result (option SalaryEstimate)) : SalaryEstimate :=
  match block with
  | Ok (Some estimate) => estimate
  | Ok None => zero_estimate
  | Raise _ => zero_estimate
  end.

Definition analyze_salary_range (salary_text : pyval) : SalaryEstimate :=
  except_zero_estimate (analyze_salary_range_try salary_text).

(** ** [detect_work_type] *)

(** The strings ['On-site'], ['Remote'], ['Hybrid'] and ['Unknown']. *)
Inductive WorkType : Type :=
  | OnSite
  | Remote
  | Hybrid
  | Unknown.

Definition work_type_eqb (a b : WorkType) : bool :=
  match a, b with
  | OnSite, OnSite | Remote, Remote | Hybrid, Hybrid | Unknown, Unknown => true
  | _, _ => false
  end.

Definition work_type_name (w : WorkType) : string :=
  match w with
  | OnSite => "On-site"
  | Remote => "Remote"
  | Hybrid => "Hybrid"
  | Unknown => "Unknown"
  end.

(** [self.work_type_keywords], in insertion order. *)
Definition work_type_keywords : list (WorkType * list string) :=
  [ (OnSite, ["on-site"; "onsite"; "in office"; "in-office"; "office based";
              "office-based"; "on location"; "on-location"; "physical location"]);
    (Remote, ["remote"; "work from home"; "wfh"; "virtual"; "telecommute";
              "telework"; "100% remote"; "fully remote"]);
    (Hybrid, ["hybrid"; "flexible"; "partially remote"; "remote optional";
              "flexible work arrangement"; "mix of remote and office"]) ].

Definition context_markers : list string :=
  ["job type:"; "work arrangement:"; "location:"; "position type:"].

Definition priority_order : list WorkType := [Remote; Hybrid; OnSite].

(** [matches[work_type] += delta] on a dict that has the key. *)
Definition bump (work_type : WorkType) (delta : Z) (matches : list (WorkType * Z))
  : list (WorkType * Z) :=
  map (fun '(k, v) => if work_type_eqb k work_type then (k, v + delta) else (k, v)) matches.

(** One turn of the inner loop: the occurrence check, then the negation
    check, both against the whole description. *)
Definition scan_keyword (description : string) (work_type : WorkType)
    (matches : list (WorkType * Z)) (keyword : string) : list (WorkType * Z) :=
  let matches :=
    if PyStr.contains keyword description then
      if existsb (fun context => PyStr.contains context description) context_markers
      then bump work_type 2 matches
      else bump work_type 1 matches
    else matches in
  if PyStr.contains ("not " ++ keyword) description
     || PyStr.contains ("no " ++ keyword) description
  then bump work_type (-1) matches
  else matches.

(** [matches[work_type]] *)
Definition matches_item (matches : list (WorkType * Z)) (work_type : WorkType) : Z :=
  match find (fun '(k, _) => work_type_eqb k work_type) matches with
  | Some (_, v) => v
  | None => 0
  end.

(** The scoring loops: the dict of scores after all keywords were scanned. *)
Definition score_matches (description : string) : list (WorkType * Z) :=
  fold_left
    (fun matches '(work_type, keywords) =>
       fold_left (scan_keyword description work_type) keywords matches)
    work_type_keywords
    (map (fun '(work_type, _) => (work_type, 0)) work_type_keywords).

(** [max(values)] of a non-empty list of integers. *)
Definition max_value (first : Z) (rest : list Z) : Z :=
  fold_left (fun m v => if m <? v then v else m) rest first.

(** The decision on the scores. *)
Definition decide_work_type (matches : list (WorkType * Z)) : WorkType :=
  match matches with
  | [] => Unknown
  | _ =>
      let valid_matches := List.filter (fun '(_, v) => 0 <? v) matches in
      match map snd valid_matches with
      | [] => Unknown
      | first :: rest =>
          let max_matches := max_value first rest in
          let max_types :=
            map fst (List.filter (fun '(_, count) => count =? max_matches) valid_matches) in
          match max_types with
          | [single] => single
          | _ =>
              match find (fun work_type => existsb (work_type_eqb work_type) max_types)
                         priority_order with
              | Some work_type => work_type
              | None => Unknown
              end
          end
      end
  end.

Definition detect_work_type (description : string) : WorkType :=
  if PyNum.nonempty description
  then decide_work_type (score_matches (PyStr.lower description))
  else Unknown.

(** The categories that are scored, and the rank of a work type in the
    tie-breaking order (its position in [priority_order]). *)
Definition categories : list WorkType := map fst work_type_keywords.

Fixpoint position (work_type : WorkType) (l : list WorkType) : nat :=
  match l with
  | [] => O
  | x :: l' => if work_type_eqb x work_type then O else S (position work_type l')
  end.

Definition priority_rank (work_type : WorkType) : nat := position work_type priority_order.

(** ** [extract_skills] and [get_skill_trends] *)

Definition common_skills : gset string :=
  list_to_set ["python"; "java"; "javascript"; "sql"; "aws"; "react"; "node.js";
               "docker"; "kubernetes"; "machine learning"; "data analysis"].

(** A listing: a dict with string keys. *)
Abbreviation job := (gmap string pyval).

(** [job.get(key, default)] *)
Definition py_get (key : string) (default_value : pyval) (j : job) : pyval :=
  default default_value (j !! key).

(** [job[key]] *)
Definition py_item (key : string) (j : job) : result pyval :=
  match j !! key with
  | Some v => Ok v
  | None => Raise KeyError
  end.

(** [Counter(l)] turned into a dict: every element counts once. *)
Definition Counter (l : list string) : gmap string nat :=
  fold_left (fun counts x => <[x := S (default O (counts !! x))]> counts) l ∅.

Section Skills.

(** The spaCy pipeline [self.nlp], seen as the function from a text to the
    texts of its tokens, in order. *)
Variable nlp : string -> list string.

(** The loop over the tokens [rest] of [doc], the first of them being
    [doc[i]]. *)
Fixpoint scan_tokens (doc : list string) (i : nat) (rest : list string)
    (skills : gset string) : gset string :=
  match rest with
  | [] => skills
  | token :: rest' =>
      let skills :=
        if bool_decide (token ∈ common_skills) then {[token]} ∪ skills else skills in
      let skills :=
        if (i <? length doc - 1)%nat then
          match doc !! (i + 1)%nat with
          | Some next =>
              let bigram := token ++ " " ++ next in
              if bool_decide (bigram ∈ common_skills) then {[bigram]} ∪ skills else skills
          | None => skills
          end
        else skills in
      scan_tokens doc (S i) rest' skills
  end.

Definition extract_skills (text : string) : gset string :=
  let doc := nlp (PyStr.lower text) in
  scan_tokens doc O doc ∅.

(** [text.lower()] exists on strings only. *)
Definition description_text (description : pyval) : result string :=
  match description with
  | PyString text => Ok text
  | _ => Raise AttributeError
  end.

(** The loop of [get_skill_trends]: [all_skills] after the listings [jobs]. *)
Fixpoint collect_skills (jobs : list job) (all_skills : list string) : result (list string) :=
  match jobs with
  | [] => Ok all_skills
  | j :: jobs' =>
      text ← description_text (py_get "description" (PyString "") j);
      let skills := extract_skills text in
      collect_skills jobs' (all_skills ++ elements skills)
  end.

Definition get_skill_trends (jobs : list job) : result (gmap string nat) :=
  all_skills ← collect_skills jobs [];
  Ok (Counter all_skills).

End Skills.

(** Whether the description of a listing yields the skill. *)
Definition job_mentions (nlp : string -> list string) (skill : string) (j : job) : bool :=
  match description_text (py_get "description" (PyString "") j) with
  | Ok text => bool_decide (skill ∈ extract_skills nlp text)
  | Raise _ => false
  end.

(** The count a skill-frequency dict gives a skill, 0 for a missing key. *)
Definition skill_count (trends : gmap string nat) (skill : string) : nat :=
  default O (trends !! skill).

(** ** [get_salary_insights] *)

Record SalaryStatistics : Type := mkStatistics {
  stat_min_salary : Q;
  stat_max_salary : Q;
  stat_average_salary : Q;
  stat_median_salary : Q
}.

Definition zero_statistics : SalaryStatistics := mkStatistics 0 0 0 0.

(** [salaries.append(a)] when [a > 0]. *)
Definition append_positive (salaries : list Q) (salary_data : SalaryEstimate) : list Q :=
  if Qlt_le_dec 0 (average_salary salary_data)
  then salaries ++ [average_salary salary_data]
  else salaries.

(** The [try] block of the loop body. *)
Definition collect_salary_try (salaries : list Q) (j : job) : result (list Q) :=
  if truthy (py_get "salary_range" PyNone j) then
    v ← py_item "salary_range" j;
    Ok (append_positive salaries (analyze_salary_range v))
  else if bool_decide (is_Some (j !! "salary")) then
    v ← py_item "salary" j;
    Ok (append_positive salaries (analyze_salary_range (PyString (py_str v))))
  else Ok salaries.

(** One turn of the loop: an exception leaves [salaries] as it was. *)
Definition collect_salary (salaries : list Q) (j : job) : list Q :=
  match collect_salary_try salaries j with
  | Ok salaries' => salaries'
  | Raise _ => salaries
  end.

(** [l[i]] *)
Definition py_index (l : list Q) (i : nat) : result Q :=
  match l !! i with
  | Some x => Ok x
  | None => Raise IndexError
  end.

(** [py_sum] is the built-in [sum] on a list of floats, whose rounding
    depends on the version of the interpreter. *)
Definition get_salary_insights (py_sum : list Q -> Q) (jobs : list job)
  : result SalaryStatistics :=
  let salaries := fold_left collect_salary jobs [] in
  match salaries with
  | [] => Ok zero_statistics
  | _ =>
      lo ← PyNum.py_min salaries;
      hi ← PyNum.py_max salaries;
      median ← py_index (PyNum.py_sorted salaries) (length salaries / 2);
      Ok (mkStatistics lo hi
            (PyNum.fdiv (py_sum salaries) (PyNum.of_int (Z.of_nat (length salaries))))
            median)
  end.

(** The salary rollup in the words of the specification: the parsed salary of
    a listing is that of its [salary_range] or, failing a usable
    [salary_range], of its generic [salary] field; the rollup collects the
    average of every parsed salary, kept when it is greater than 0. *)
Definition listing_estimate (j : job) : option SalaryEstimate :=
  let fallback := (fun v => analyze_salary_range (PyString (py_str v))) <$> j !! "salary" in
  match j !! "salary_range" with
  | Some v => if truthy v then Some (analyze_salary_range v) else fallback
  | None => fallback
  end.

Definition collected_averages (jobs : list job) : list Q :=
  flat_map (fun j =>
    match listing_estimate j with
    | Some estimate =>
        if Qlt_le_dec 0 (average_salary estimate) then [average_salary estimate] else []
    | None => []
    end) jobs.

(** A tokenizer for the worked examples.  [self.nlp] is the spaCy pipeline,
    a library and no code of this repository, and every statement takes it
    as a parameter; this stand-in cuts a text at white space and keeps the
    order of the tokens, as spaCy does on words separated by single spaces,
    which is what the texts of the examples are. *)
Fixpoint split_whitespace (current : string) (s : string) : list string :=
  match s with
  | EmptyString => if PyNum.nonempty current then [current] else []
  | String c s' =>
      if PyStr.is_space c
      then (if PyNum.nonempty current then [current] else []) ++ split_whitespace "" s'
      else split_whitespace (current ++ String c "") s'
  end.

Definition whitespace_tokens (s : string) : list string := split_whitespace "" s.

(** ** Auxiliary notions used by the statements *)

(** Whether [s] begins with a digit. *)
Definition starts_with_digit (s : string) : bool :=
  match s with
  | EmptyString => false
  | String c _ => PyStr.is_digit c
  end.

(** What one keyword adds to the score of its category. *)
Definition keyword_delta (description keyword : string) : Z :=
  (if PyStr.contains keyword description
   then if existsb (fun context => PyStr.contains context description) context_markers
        then 2 else 1
   else 0)
  + (if PyStr.contains ("not " ++ keyword) description
        || PyStr.contains ("no " ++ keyword) description
     then -1 else 0).

(** [self.work_type_keywords[work_type]] *)
Definition keywords_of (work_type : WorkType) : list string :=
  match find (fun '(k, _) => work_type_eqb k work_type) work_type_keywords with
  | Some (_, keywords) => keywords
  | None => []
  end.

Definition Zsum (l : list Z) : Z := fold_right Z.add 0 l.


(** The numbers that are doubles, among those that are not negative: at
    most 53 bits times a power of two that is at least [2 ^ -1074]. *)
Definition representable (x : Q) : Prop :=
  exists m k : Z, 0 <= m <= 2 ^ 53 /\ -1074 <= k /\ (x == inject_Z m * 2 ^ k)%Q.

(** No character of the text is a digit. *)
Fixpoint no_digit (s : string) : bool :=
  match s with
  | EmptyString => true
  | String c s' => negb (PyStr.is_digit c) && no_digit s'
  end.

(** A number as the salary pattern matches it: digits, or digits, a dot and
    digits. *)
Definition decimal_literal (n : string) : bool :=
  let '(d, r) := PyStr.span_digits n in
  PyNum.nonempty d &&
  match r with
  | EmptyString => true
  | String c f => Ascii.eqb c "." && PyNum.nonempty f && PyNum.all_digits f
  end.

(** No character of the text is a digit or a dot: such are all the keys of
    the marker tables. *)
Fixpoint plain (s : string) : bool :=
  match s with
  | EmptyString => true
  | String c s' => negb (PyStr.is_digit c) && negb (Ascii.eqb c ".") && plain s'
  end.

(** Every character of the text is a digit or a dot. *)
Fixpoint numeric (s : string) : bool :=
  match s with
  | EmptyString => true
  | String c s' => (PyStr.is_digit c || Ascii.eqb c ".") && numeric s'
  end.

(** A text at whose start a number ends: it begins neither with a digit nor
    with a dot and a digit. *)
Definition ends_number (s : string) : bool :=
  match s with
  | EmptyString => true
  | String c s' => negb (PyStr.is_digit c) && negb (Ascii.eqb c "." && starts_with_digit s')
  end.

(** Every key of the table is plain and not empty. *)
Definition plain_keys (table : list (string * Z)) : bool :=
  forallb (fun '(key, _) => plain key && PyNum.nonempty key) table.

(** What a marker loop leaves of a stretch [part] of the text [cleaned]: the
    key the loop finds in [cleaned], if any, is deleted from it. *)
Definition without_marker (table : list (string * Z)) (cleaned part : string) : string :=
  match List.find (fun '(key, _) => PyStr.contains key cleaned) table with
  | Some (key, _) => PyStr.replace key "" part
  | None => part
  end.

(** What the two marker loops, run on [cleaned], leave of a stretch [part] of
    it. *)
Definition left_of (cleaned part : string) : string :=
  without_marker multipliers (without_marker time_multipliers cleaned cleaned)
                 (without_marker time_multipliers cleaned part).

(** [s] is the token at index [j] of [doc], or the bigram that starts there. *)
Definition found_at (doc : list string) (j : nat) (s : string) : Prop :=
  doc !! j = Some s \/
  exists a b, doc !! j = Some a /\ doc !! S j = Some b /\ s = a ++ " " ++ b.

(** Sample listings. *)
Definition example_jobs : list job :=
  [ {[ "description" := PyString "Python python and more python with Java" ]};
    ∅;
    {[ "description" := PyString "We need python" ]} ].

Definition example_trends : gmap string nat := {[ "python" := 2%nat; "java" := 1%nat ]}.

Definition four_jobs : list job :=
  [ {[ "salary_range" := PyString "$80,000 - $100,000" ]};
    {[ "salary_range" := PyString "70k" ]};
    {[ "salary_range" := PyString "negotiable" ]};
    {[ "salary" := PyInt 50000 ]};
    {[ "salary_range" := PyString "20k" ]} ].

Definition fallback_jobs : list job :=
  [ {[ "salary_range" := PyString ""; "salary" := PyString "50000" ]} ].

Definition unpaid_jobs : list job :=
  [ {[ "title" := PyString "Intern"; "salary_range" := PyString "" ]};
    {[ "salary_range" := PyString "" ]} ].

(** ** [filter_jobs_by_work_type] and [get_work_type_distribution] *)

(** [detect_work_type] on the value a listing holds: [not description] is
    true of [None], [0] and ['']; any other value that is no text has no
    method [lower]. *)
Definition detect_work_type_of (description : pyval) : result WorkType :=
  match description with
  | PyString text => Ok (detect_work_type text)
  | _ => if truthy description then Raise AttributeError else Ok Unknown
  end.

(** [self.detect_work_type(job.get('description', ''))], as the string it
    returns. *)
Definition job_work_type (j : job) : result string :=
  w ← detect_work_type_of (py_get "description" (PyString "") j);
  Ok (work_type_name w).

(** [[job for job in jobs if self.detect_work_type(...) == work_type]] *)
Fixpoint filter_by_work_type (work_type : string) (jobs : list job) : result (list job) :=
  match jobs with
  | [] => Ok []
  | j :: jobs' =>
      w ← job_work_type j;
      rest ← filter_by_work_type work_type jobs';
      Ok (if String.eqb w work_type then j :: rest else rest)
  end.

Definition filter_jobs_by_work_type (jobs : list job) (work_type : string)
  : result (list job) :=
  if String.eqb work_type "All" then Ok jobs
  else filter_by_work_type work_type jobs.

Definition get_work_type_distribution (jobs : list job) : result (gmap string nat) :=
  work_types ← comprehension job_work_type jobs;
  Ok (Counter work_types).

(** ** [get_location_trends] *)

(** [s.split(sep)] for a separator of one character. *)
Fixpoint py_split (sep : ascii) (s : string) : list string :=
  match s with
  | EmptyString => [EmptyString]
  | String c s' =>
      if Ascii.eqb c sep then EmptyString :: py_split sep s'
      else
        match py_split sep s' with
        | first :: rest => String c first :: rest
        | [] => [String c EmptyString]
        end
  end.

(** [l[i]] *)
Definition list_item {A : Type} (l : list A) (i : nat) : result A :=
  match l !! i with
  | Some x => Ok x
  | None => Raise IndexError
  end.

(** The receiver of a [str] method: values that are no text lack it. *)
Definition str_receiver (v : pyval) : result string :=
  match v with
  | PyString text => Ok text
  | _ => Raise AttributeError
  end.

(** The list comprehension of [get_location_trends]. *)
Fixpoint collect_locations (jobs : list job) : result (list string) :=
  match jobs with
  | [] => Ok []
  | j :: jobs' =>
      if truthy (py_get "location" PyNone j) then
        text ← str_receiver (py_get "location" (PyString "") j);
        first ← list_item (py_split ","%char text) 0;
        rest ← collect_locations jobs';
        Ok (PyStr.strip first :: rest)
      else collect_locations jobs'
  end.

Definition get_location_trends (jobs : list job) : result (gmap string nat) :=
  locations ← collect_locations jobs;
  Ok (Counter locations).

(** ** [BaseScraper._normalize_job_data] *)

Section Normalize.

(** The values of a raw record, with the defaults the method fills in: the
    empty text, the empty list, the time of the call in ISO format and the
    name of the scraper class. *)
Context {V : Type}.
Variables (empty_text empty_list now class_name : V).

Definition normalize_job_data (raw_job : gmap string V) : gmap string V :=
  list_to_map
    [ ("title", default empty_text (raw_job !! "title"));
      ("company", default empty_text (raw_job !! "company"));
      ("location", default empty_text (raw_job !! "location"));
      ("description", default empty_text (raw_job !! "description"));
      ("salary_range", default empty_text (raw_job !! "salary_range"));
      ("skills", default empty_list (raw_job !! "skills"));
      ("url", default empty_text (raw_job !! "url"));
      ("posted_date", default now (raw_job !! "posted_date"));
      ("source", default class_name (raw_job !! "source")) ].

End Normalize.

Definition normalized_keys : gset string :=
  list_to_set ["title"; "company"; "location"; "description"; "salary_range";
               "skills"; "url"; "posted_date"; "source"].

(** ** [_build_search_url] of the two scrapers *)

(** [IndeedScraper._build_search_url]; [location] is [None] or a text, and
    the empty text counts as no location. *)
Definition indeed_build_search_url (query : string) (location : option string) (page : Z)
  : string :=
  let base_query := "/jobs?q=" ++ PyStr.replace " " "+" query in
  let base_query :=
    match location with
    | Some l =>
        if PyNum.nonempty l then base_query ++ "&l=" ++ PyStr.replace " " "+" l
        else base_query
    | None => base_query
    end in
  let base_query :=
    if 0 <? page then base_query ++ "&start=" ++ pretty (page * 10) else base_query in
  "https://www.indeed.com" ++ base_query.

(** [LinkedInScraper._build_search_url] *)
Definition linkedin_build_search_url (query : string) (location : option string) (page : Z)
  : string :=
  let base_query := "/jobs/search?keywords=" ++ PyStr.replace " " "%20" query in
  let base_query :=
    match location with
    | Some l =>
        if PyNum.nonempty l then base_query ++ "&location=" ++ PyStr.replace " " "%20" l
        else base_query
    | None => base_query
    end in
  let base_query :=
    if 0 <? page then base_query ++ "&start=" ++ pretty (page * 25) else base_query in
  "https://www.linkedin.com" ++ base_query.

(** ** The salary line of a listing in [display_insights] *)

Inductive salary_line : Type :=
  | SingleSalary (average : Q)
  | SalaryRange (low high : Q).

(** Which salary line the dashboard writes for a listing, if any; the
    formatting of the amounts is left out. *)
Definition listing_salary_line (j : job) : result (option salary_line) :=
  if truthy (py_get "salary_range" PyNone j) then
    v ← py_item "salary_range" j;
    let salary_data := analyze_salary_range v in
    if Qeq_bool (min_salary salary_data) (max_salary salary_data) then
      if Qlt_le_dec 0 (average_salary salary_data)
      then Ok (Some (SingleSalary (average_salary salary_data)))
      else Ok None
    else Ok (Some (SalaryRange (min_salary salary_data) (max_salary salary_data)))
  else Ok None.

(** ** Auxiliary notions used by the further statements *)

(** The sum of the counts of a frequency dict. *)
Definition total_count (counts : gmap string nat) : nat :=
  map_fold (fun _ n total => (n + total)%nat) O counts.

(** The strings [detect_work_type] can return. *)
Definition work_type_names : list string := ["On-site"; "Remote"; "Hybrid"; "Unknown"].

(** A value that is true as a condition and is no text: it passes a truth
    test and then lacks the methods of [str]. *)
Definition truthy_non_text (v : pyval) : bool :=
  truthy v && match v with PyString _ => false | _ => true end.

(** The description of the listing is such a value. *)
Definition unusable_description (j : job) : Prop :=
  truthy_non_text (py_get "description" (PyString "") j) = true.

(** The location of the listing is such a value. *)
Definition unusable_location (j : job) : Prop :=
  truthy_non_text (py_get "location" PyNone j) = true.

(** The character occurs in the text. *)
Fixpoint char_in (c : ascii) (s : string) : bool :=
  match s with
  | EmptyString => false
  | String c' s' => Ascii.eqb c' c || char_in c s'
  end.

(** The listing has a location that is true as a condition. *)
Definition has_location (j : job) : bool := truthy (py_get "location" PyNone j).


(** ** Sample listings *)

Definition office_jobs : list job :=
  [ {[ "description" := PyString "Fully remote team" ]};
    {[ "description" := PyString "Work on-site in Berlin";
       "location" := PyString "Berlin, Germany" ]};
    ∅;
    {[ "description" := PyString "Remote, work from home";
       "location" := PyString " Paris , France" ]} ].

Definition remote_jobs : list job :=
  [ {[ "description" := PyString "Fully remote team" ]};
    {[ "description" := PyString "Remote, work from home";
       "location" := PyString " Paris , France" ]} ].

Definition office_distribution : gmap string nat :=
  {[ "Remote" := 2%nat; "On-site" := 1%nat; "Unknown" := 1%nat ]}.

Definition office_locations : gmap string nat :=
  {[ "Berlin" := 1%nat; "Paris" := 1%nat ]}.

(** * Proofs *)

(** ** Strings *)

Lemma append_nil_l (s : string) : "" ++ s = s.
Proof. reflexivity. Qed.

Lemma append_cons (c : ascii) (s t : string) : String c s ++ t = String c (s ++ t).
Proof. reflexivity. Qed.

Lemma append_nil_r (s : string) : s ++ "" = s.
Proof. induction s as [| c s IH]; [reflexivity |]. now rewrite append_cons, IH. Qed.

Lemma append_assoc (a b c : string) : (a ++ b) ++ c = a ++ (b ++ c).
Proof. induction a as [| x a IH]; [reflexivity |]. now rewrite !append_cons, IH. Qed.

Lemma nonempty_true (s : string) : s <> "" -> PyNum.nonempty s = true.
Proof. destruct s; [congruence | reflexivity]. Qed.

Lemma span_digits_spec (s d r : string) :
  PyStr.span_digits s = (d, r) ->
  s = d ++ r /\ PyNum.all_digits d = true /\ starts_with_digit r = false.
Proof.
  revert d r. induction s as [| c s IH]; intros d r; cbn [PyStr.span_digits].
  - intros [= <- <-]. auto.
  - destruct (PyStr.is_digit c) eqn:Hc.
    + destruct (PyStr.span_digits s) as [d' r'].
      intros [= <- <-]. destruct (IH d' r' eq_refl) as (-> & Hd & Hr).
      cbn [PyNum.all_digits]. rewrite Hc, Hd. auto.
    + intros [= <- <-]. auto.
Qed.

Lemma span_digits_app (d r : string) :
  PyNum.all_digits d = true -> starts_with_digit r = false ->
  PyStr.span_digits (d ++ r) = (d, r).
Proof.
  intros Hd Hr. induction d as [| c d IH].
  - destruct r as [| c r]; [reflexivity |].
    cbn [starts_with_digit] in Hr. rewrite append_nil_l.
    cbn [PyStr.span_digits]. now rewrite Hr.
  - cbn [PyNum.all_digits] in Hd. apply andb_true_iff in Hd as [Hc Hd].
    rewrite append_cons. cbn [PyStr.span_digits]. now rewrite Hc, (IH Hd).
Qed.

Lemma span_digits_all (d : string) :
  PyNum.all_digits d = true -> PyStr.span_digits d = (d, "").
Proof.
  intros Hd. pose proof (span_digits_app d "" Hd eq_refl) as Hsp.
  now rewrite append_nil_r in Hsp.
Qed.


(** ** Binary64 rounding *)

Section Binary64.

Import PyNum.

Lemma Qhundred (x : Q) : (x / 100 == x * (1 # 100))%Q.
Proof. reflexivity. Qed.

Lemma pow2_pos (e : Z) : (0 < 2 ^ e)%Q.
Proof. now apply Qpower_0_lt. Qed.

Lemma pow2_add (a b : Z) : (2 ^ (a + b) == 2 ^ a * 2 ^ b)%Q.
Proof. apply Qpower_plus. intros H. inversion H. Qed.

Lemma pow2_succ (a : Z) : (2 ^ (a + 1) == 2 * 2 ^ a)%Q.
Proof. rewrite pow2_add. change (2 ^ 1)%Q with 2%Q. ring. Qed.

Lemma pow2_le (a b : Z) : a <= b -> (2 ^ a <= 2 ^ b)%Q.
Proof. intros H. apply Qpower_le_compat_l; [exact H | discriminate]. Qed.

Lemma pow2_le_inv (a b : Z) : (2 ^ a <= 2 ^ b)%Q -> a <= b.
Proof. intros H. apply (Qpower_le_compat_l_inv 2); [exact H | reflexivity]. Qed.

Lemma pow2_lt_inv (a b : Z) : (2 ^ a < 2 ^ b)%Q -> a < b.
Proof. intros H. apply (Qpower_lt_compat_l_inv 2); [exact H | reflexivity]. Qed.

Lemma pow2_Z (n : Z) : 0 <= n -> (2 ^ n == inject_Z (2 ^ n))%Q.
Proof. intros H. now rewrite Zpower_Qpower. Qed.

Lemma pow2_cancel (a b : Z) : (2 ^ a * 2 ^ (b - a) == 2 ^ b)%Q.
Proof. rewrite <- pow2_add. now replace (a + (b - a)) with b by lia. Qed.

Lemma binade_spec (x : Q) :
  (0 < x)%Q -> (2 ^ binade x <= x < 2 ^ (binade x + 1))%Q.
Proof.
  intros Hx. destruct x as [n d].
  assert (Hn : 0 < n) by (unfold Qlt in Hx; simpl in Hx; lia).
  unfold binade. cbn [Qnum Qden].
  set (a := Z.log2 n). set (b := Z.log2 (Z.pos d)).
  destruct (Z.log2_spec n Hn) as [Ha1 Ha2]. fold a in Ha1, Ha2.
  destruct (Z.log2_spec (Z.pos d) ltac:(lia)) as [Hb1 Hb2]. fold b in Hb1, Hb2.
  assert (Ha0 : 0 <= a) by apply Z.log2_nonneg.
  assert (Hb0 : 0 <= b) by apply Z.log2_nonneg.
  assert (HN : ((n # d) * inject_Z (Z.pos d) == inject_Z n)%Q).
  { unfold Qeq. cbn. rewrite ?Pos.mul_1_r. ring. }
  assert (HA1 : (2 ^ a <= inject_Z n)%Q) by (rewrite pow2_Z, <- Zle_Qle; assumption).
  assert (HA2 : (inject_Z n < 2 * 2 ^ a)%Q).
  { rewrite <- pow2_succ, pow2_Z, <- Zlt_Qlt by lia. now rewrite Z.add_1_r. }
  assert (HB1 : (2 ^ b <= inject_Z (Z.pos d))%Q) by (rewrite pow2_Z, <- Zle_Qle; assumption).
  assert (HB2 : (inject_Z (Z.pos d) < 2 * 2 ^ b)%Q).
  { rewrite <- pow2_succ, pow2_Z, <- Zlt_Qlt by lia. now rewrite Z.add_1_r. }
  pose proof (pow2_cancel b a) as HP.
  pose proof (pow2_pos b) as Hpb. pose proof (pow2_pos (a - b)) as Hpab.
  set (X := (n # d)%Q) in *. set (D := inject_Z (Z.pos d)) in *.
  set (N := inject_Z n) in *. set (PA := (2 ^ a)%Q) in *. set (PB := (2 ^ b)%Q) in *.
  set (P := (2 ^ (a - b))%Q) in *.
  destruct (Qle_bool P X) eqn:Hle.
  - apply Qle_bool_iff in Hle. split; [exact Hle |].
    rewrite pow2_succ. fold P. nra.
  - assert (Hlt : (X < P)%Q).
    { apply Qnot_le_lt. intros H. apply Qle_bool_iff in H. congruence. }
    replace (a - b - 1 + 1) with (a - b) by lia. fold P. split; [| exact Hlt].
    assert (E : (2 * 2 ^ (a - b - 1) == P)%Q).
    { rewrite <- pow2_succ. now replace (a - b - 1 + 1) with (a - b) by lia. }
    nra.
Qed.

Lemma binade_unique (x : Q) (e : Z) :
  (2 ^ e <= x < 2 ^ (e + 1))%Q -> binade x = e.
Proof.
  intros [H1 H2].
  assert (Hx : (0 < x)%Q) by (pose proof (pow2_pos e); lra).
  destruct (binade_spec x Hx) as [H3 H4].
  assert (binade x < e + 1) by (apply pow2_lt_inv; lra).
  assert (e < binade x + 1) by (apply pow2_lt_inv; lra).
  lia.
Qed.

Lemma binade_comp (x y : Q) : (0 < x)%Q -> (x == y)%Q -> binade x = binade y.
Proof.
  intros Hx E. symmetry. apply binade_unique. rewrite <- E. now apply binade_spec.
Qed.

Lemma round_half_even_bounds (x : Q) :
  Qfloor x <= round_half_even x <= Qfloor x + 1.
Proof.
  unfold round_half_even.
  destruct (x - inject_Z (Qfloor x) ?= 1 # 2)%Q; [destruct (Z.even _) | |]; lia.
Qed.

Lemma round_half_even_comp (x y : Q) :
  (x == y)%Q -> round_half_even x = round_half_even y.
Proof.
  intros E. unfold round_half_even.
  rewrite (Qfloor_comp _ _ E).
  assert (Hc : ((x - inject_Z (Qfloor y)) ?= 1 # 2)%Q
               = ((y - inject_Z (Qfloor y)) ?= 1 # 2)%Q).
  { apply Qcompare_comp; [rewrite E |]; reflexivity. }
  now rewrite Hc.
Qed.

Lemma round_half_even_mono (x y : Q) :
  (x <= y)%Q -> round_half_even x <= round_half_even y.
Proof.
  intros Hxy. pose proof (Qfloor_resp_le _ _ Hxy) as Hf.
  destruct (Z.eq_dec (Qfloor x) (Qfloor y)) as [E | NE].
  - unfold round_half_even. rewrite <- E.
    destruct (Qcompare_spec (x - inject_Z (Qfloor x)) (1 # 2)) as [H1 | H1 | H1],
             (Qcompare_spec (y - inject_Z (Qfloor x)) (1 # 2)) as [H2 | H2 | H2];
      try (exfalso; lra); try destruct (Z.even (Qfloor x)); lia.
  - pose proof (round_half_even_bounds x). pose proof (round_half_even_bounds y). lia.
Qed.

Lemma round_half_even_Z (n : Z) : round_half_even (inject_Z n) = n.
Proof.
  unfold round_half_even. rewrite Qfloor_Z.
  destruct (Qcompare_spec (inject_Z n - inject_Z n) (1 # 2)); try lra; lia.
Qed.

(** The significand of a positive number. *)
Lemma significand_bounds (x : Q) :
  (0 < x)%Q ->
  let e := Z.max (binade x) (-1022) in
  let m := round_half_even (x * 2 ^ (52 - e)) in
  0 <= m <= 2 ^ 53 /\ (-1022 <= binade x -> 2 ^ 52 <= m).
Proof.
  intros Hx e m. destruct (binade_spec x Hx) as [H1 H2].
  pose proof (pow2_pos (52 - e)) as Hp.
  assert (Hup : (x * 2 ^ (52 - e) <= inject_Z (2 ^ 53))%Q).
  { rewrite <- pow2_Z by lia. rewrite <- (pow2_cancel (52 - e) 53).
    replace (53 - (52 - e)) with (e + 1) by lia.
    assert ((2 ^ (binade x + 1) <= 2 ^ (e + 1))%Q) by (apply pow2_le; lia).
    rewrite (Qmult_comm (2 ^ (52 - e))). apply Qmult_le_compat_r; lra. }
  apply round_half_even_mono in Hup. rewrite round_half_even_Z in Hup.
  assert (Hlo : (inject_Z 0 <= x * 2 ^ (52 - e))%Q).
  { change (inject_Z 0) with 0%Q. apply Qmult_le_0_compat; lra. }
  apply round_half_even_mono in Hlo. rewrite round_half_even_Z in Hlo.
  split; [fold m in Hup, Hlo; lia |].
  intros Hn. assert (He : e = binade x) by lia.
  assert (Hdown : (inject_Z (2 ^ 52) <= x * 2 ^ (52 - e))%Q).
  { rewrite <- pow2_Z by lia. rewrite <- (pow2_cancel (52 - e) 52).
    replace (52 - (52 - e)) with e by lia. rewrite He in *.
    rewrite (Qmult_comm (2 ^ (52 - binade x))). apply Qmult_le_compat_r; lra. }
  apply round_half_even_mono in Hdown. now rewrite round_half_even_Z in Hdown.
Qed.

Lemma round_magnitude_eq (x : Q) :
  let e := Z.max (binade x) (-1022) in
  (round_magnitude x == inject_Z (round_half_even (x * 2 ^ (52 - e))) * 2 ^ (e - 52))%Q.
Proof. intros e. unfold round_magnitude. fold e. apply Qred_correct. Qed.

Lemma round_magnitude_representable (x : Q) :
  (0 < x)%Q -> representable (round_magnitude x).
Proof.
  intros Hx. destruct (significand_bounds x Hx) as [Hm _].
  eexists _, _. split; [exact Hm |]. split; [| apply round_magnitude_eq]. lia.
Qed.

Lemma round_magnitude_exact (x : Q) :
  (0 < x)%Q -> representable x -> (round_magnitude x == x)%Q.
Proof.
  intros Hx (m & k & [Hm0 Hm] & Hk & E).
  rewrite round_magnitude_eq. set (e := Z.max (binade x) (-1022)).
  destruct (binade_spec x Hx) as [H1 H2].
  destruct (Z_le_gt_dec 0 (k + 52 - e)) as [Hge | Hlt].
  - assert (Ey : (x * 2 ^ (52 - e) == inject_Z (m * 2 ^ (k + 52 - e)))%Q).
    { rewrite inject_Z_mult, <- pow2_Z by exact Hge. rewrite E.
      rewrite <- Qmult_assoc, <- pow2_add. now replace (k + (52 - e)) with (k + 52 - e) by lia. }
    rewrite (round_half_even_comp _ _ Ey), round_half_even_Z.
    rewrite inject_Z_mult, <- pow2_Z by exact Hge. rewrite E.
    rewrite <- Qmult_assoc, <- pow2_add. now replace (k + 52 - e + (e - 52)) with k by lia.
  - assert (He : e = binade x) by lia.
    assert (Hmk : (2 ^ (e - k) <= inject_Z m)%Q).
    { rewrite <- He in H1.
      assert (H1' : (2 ^ (e - k) * 2 ^ k <= inject_Z m * 2 ^ k)%Q).
      { rewrite (Qmult_comm (2 ^ (e - k))), pow2_cancel, <- E. exact H1. }
      pose proof (pow2_pos k). now apply Qmult_le_r in H1'. }
    assert (Hm' : (inject_Z m <= 2 ^ 53)%Q) by (rewrite pow2_Z, <- Zle_Qle; lia).
    assert (Hek : e - k = 53) by (assert (e - k <= 53) by (apply pow2_le_inv; lra); lia).
    rewrite Hek in Hmk. assert (m = 2 ^ 53).
    { rewrite pow2_Z, <- Zle_Qle in Hmk; lia. }
    subst m.
    assert (Ey : (x * 2 ^ (52 - e) == inject_Z (2 ^ 52))%Q).
    { rewrite E, <- !pow2_Z, <- !pow2_add by lia. now replace (53 + k + (52 - e)) with 52 by lia. }
    rewrite (round_half_even_comp _ _ Ey), round_half_even_Z.
    rewrite E, <- !pow2_Z, <- !pow2_add by lia. now replace (52 + (e - 52)) with (53 + k) by lia.
Qed.

Lemma positive_numerator (x : Q) : (0 < x)%Q <-> exists p, Qnum x = Z.pos p.
Proof.
  destruct x as [[| p | p] d]; unfold Qlt; cbn; split;
    try (intros [q H]; discriminate); try lia; eauto.
Qed.

Lemma zero_numerator (x : Q) : (x == 0)%Q <-> Qnum x = 0.
Proof. destruct x as [n d]. unfold Qeq. cbn. lia. Qed.

Lemma round_binary64_positive (x : Q) :
  (0 < x)%Q -> round_binary64 x = round_magnitude x.
Proof.
  intros Hx. apply positive_numerator in Hx as [p Hp]. unfold round_binary64. now rewrite Hp.
Qed.

Lemma round_binary64_zero (x : Q) : (x == 0)%Q -> round_binary64 x = 0%Q.
Proof. intros Hx. apply zero_numerator in Hx. unfold round_binary64. now rewrite Hx. Qed.

Lemma round_magnitude_comp (x y : Q) :
  (0 < x)%Q -> (x == y)%Q -> round_magnitude x = round_magnitude y.
Proof.
  intros Hx E. unfold round_magnitude. rewrite <- (binade_comp x y Hx E).
  apply Qred_complete.
  rewrite (round_half_even_comp (x * _) (y * 2 ^ (52 - Z.max (binade x) (-1022)))); [reflexivity |].
  apply Qmult_comp; [exact E | reflexivity].
Qed.

Lemma round_binary64_comp (x y : Q) : (x == y)%Q -> round_binary64 x = round_binary64 y.
Proof.
  intros E. destruct (Q_dec 0 x) as [[Hx | Hx] | Hx].
  - rewrite !round_binary64_positive by (rewrite <- ?E; exact Hx).
    now apply round_magnitude_comp.
  - unfold round_binary64.
    assert (Hy : (y < 0)%Q) by (rewrite <- E; exact Hx).
    destruct x as [[| p | p] d], y as [[| q | q] c]; unfold Qlt in Hx, Hy; cbn in Hx, Hy; try lia.
    cbn [Qnum]. f_equal. apply round_magnitude_comp; [reflexivity | now rewrite E].
  - rewrite !round_binary64_zero; [reflexivity | | ]; rewrite <- ?E; now symmetry.
Qed.

Lemma round_binary64_nonneg (x : Q) : (0 <= x)%Q -> (0 <= round_binary64 x)%Q.
Proof.
  intros Hx. destruct (Qle_lt_or_eq _ _ Hx) as [Hp | Hz].
  - rewrite round_binary64_positive, round_magnitude_eq by exact Hp.
    destruct (significand_bounds x Hp) as [[Hm _] _].
    apply Qmult_le_0_compat; [now rewrite <- (Zle_Qle 0) | apply Qlt_le_weak, pow2_pos].
  - rewrite round_binary64_zero by (now symmetry). lra.
Qed.

Lemma round_binary64_representable (x : Q) :
  (0 <= x)%Q -> representable (round_binary64 x).
Proof.
  intros Hx. destruct (Qle_lt_or_eq _ _ Hx) as [Hp | Hz].
  - rewrite round_binary64_positive by exact Hp. now apply round_magnitude_representable.
  - rewrite round_binary64_zero by (now symmetry). exists 0, 0. repeat split; lia || reflexivity.
Qed.

Lemma round_binary64_exact (x : Q) :
  (0 <= x)%Q -> representable x -> (round_binary64 x == x)%Q.
Proof.
  intros Hx Hr. destruct (Qle_lt_or_eq _ _ Hx) as [Hp | Hz].
  - rewrite round_binary64_positive by exact Hp. now apply round_magnitude_exact.
  - rewrite round_binary64_zero by (now symmetry). exact Hz.
Qed.

Lemma round_magnitude_mono (x y : Q) :
  (0 < x)%Q -> (x <= y)%Q -> (round_magnitude x <= round_magnitude y)%Q.
Proof.
  intros Hx Hxy. assert (Hy : (0 < y)%Q) by lra.
  rewrite !round_magnitude_eq.
  destruct (binade_spec x Hx) as [Hx1 Hx2]. destruct (binade_spec y Hy) as [Hy1 Hy2].
  assert (Hb : binade x <= binade y).
  { assert (binade x < binade y + 1) by (apply pow2_lt_inv; lra). lia. }
  set (ex := Z.max (binade x) (-1022)). set (ey := Z.max (binade y) (-1022)).
  destruct (significand_bounds x Hx) as [[_ Hmx] _]. fold ex in Hmx.
  destruct (significand_bounds y Hy) as [_ Hmy]. fold ey in Hmy.
  destruct (Z.eq_dec ex ey) as [E | NE].
  - rewrite <- E. pose proof (pow2_pos (ex - 52)). pose proof (pow2_pos (52 - ex)).
    apply Qmult_le_compat_r; [| lra]. rewrite <- Zle_Qle.
    apply round_half_even_mono. apply Qmult_le_compat_r; lra.
  - assert (Hlt : ex < ey) by lia. assert (Hn : -1022 <= binade y) by lia.
    specialize (Hmy Hn).
    apply Qle_trans with (2 ^ ey)%Q.
    + apply Qle_trans with (2 ^ (ex + 1))%Q; [| apply pow2_le; lia].
      rewrite <- (pow2_cancel (ex - 52) (ex + 1)). replace (ex + 1 - (ex - 52)) with 53 by lia.
      rewrite (Qmult_comm (2 ^ (ex - 52))). pose proof (pow2_pos (ex - 52)).
      apply Qmult_le_compat_r; [| lra]. rewrite (pow2_Z 53), <- Zle_Qle by lia. exact Hmx.
    + rewrite <- (pow2_cancel (ey - 52) ey) at 1. replace (ey - (ey - 52)) with 52 by lia.
      rewrite (Qmult_comm (2 ^ (ey - 52))). pose proof (pow2_pos (ey - 52)).
      apply Qmult_le_compat_r; [| lra]. rewrite (pow2_Z 52), <- Zle_Qle by lia. exact Hmy.
Qed.

Lemma round_binary64_mono (x y : Q) :
  (0 <= x)%Q -> (x <= y)%Q -> (round_binary64 x <= round_binary64 y)%Q.
Proof.
  intros Hx Hxy. destruct (Qle_lt_or_eq _ _ Hx) as [Hp | Hz].
  - rewrite !round_binary64_positive by lra. now apply round_magnitude_mono.
  - rewrite (round_binary64_zero x) by (now symmetry). apply round_binary64_nonneg. lra.
Qed.

Lemma round_binary64_canonical (x q : Q) :
  (0 <= x)%Q -> (round_binary64 x == q)%Q -> round_binary64 x = Qred q.
Proof.
  intros Hx E. destruct (Qle_lt_or_eq _ _ Hx) as [Hp | Hz].
  - rewrite round_binary64_positive in * by exact Hp.
    unfold round_magnitude in *. rewrite Qred_correct in E. now apply Qred_complete.
  - rewrite round_binary64_zero in * by (now symmetry).
    change 0%Q with (Qred 0). now apply Qred_complete.
Qed.


Lemma Qred_Z (z : Z) : Qred (inject_Z z) = inject_Z z.
Proof.
  unfold Qred, inject_Z.
  generalize (Z.ggcd_gcd z 1) (Z.ggcd_correct_divisors z 1).
  destruct (Z.ggcd z 1) as [g [a b]]. cbn [fst snd]. rewrite Z.gcd_1_r.
  intros -> [Ha Hb]. rewrite !Z.mul_1_l in *. now subst.
Qed.

Lemma representable_Z (z : Z) : 0 <= z <= 2 ^ 53 -> representable (inject_Z z).
Proof. intros Hz. exists z, 0. split; [exact Hz |]. split; [lia |]. change (2 ^ 0)%Q with 1%Q. ring. Qed.

Lemma round_binary64_Z (z : Z) :
  0 <= z <= 2 ^ 53 -> round_binary64 (inject_Z z) = inject_Z z.
Proof.
  intros Hz. assert (H0 : (0 <= inject_Z z)%Q) by (rewrite <- (Zle_Qle 0); lia).
  rewrite (round_binary64_canonical _ (inject_Z z) H0).
  - apply Qred_Z.
  - apply round_binary64_exact; [exact H0 | now apply representable_Z].
Qed.

Lemma round_binary64_nonpos (x : Q) : (x <= 0)%Q -> (round_binary64 x <= 0)%Q.
Proof.
  intros Hx. destruct (Qle_lt_or_eq _ _ Hx) as [Hn | Hz].
  - assert (Hp : (0 < - x)%Q) by lra.
    pose proof (round_binary64_nonneg (- x) (Qlt_le_weak _ _ Hp)) as H.
    rewrite round_binary64_positive in H by exact Hp.
    unfold round_binary64. destruct x as [[| p | p] d]; unfold Qlt in Hn; cbn in Hn; try lia.
    cbn [Qnum]. lra.
  - rewrite round_binary64_zero by exact Hz. lra.
Qed.

(** A rounded result that is positive is a double. *)
Lemma positive_rounding (x : Q) :
  (0 < round_binary64 x)%Q -> (0 < x)%Q /\ representable (round_binary64 x).
Proof.
  intros H. assert (Hx : (0 < x)%Q).
  { apply Qnot_le_lt. intros Hle. apply round_binary64_nonpos in Hle. lra. }
  split; [exact Hx |]. apply round_binary64_representable. lra.
Qed.

Lemma representable_double (x : Q) : representable x -> representable (2 * x).
Proof.
  intros (m & k & Hm & Hk & E). exists m, (k + 1). split; [exact Hm |]. split; [lia |].
  rewrite E, pow2_succ. ring.
Qed.

Lemma hundredths_nonneg (x : Q) :
  (0 <= x)%Q -> (0 <= inject_Z (round_half_even (x * 100)) / 100)%Q.
Proof.
  intros Hx. assert (H : (inject_Z 0 <= x * 100)%Q) by (change (inject_Z 0) with 0%Q; lra).
  apply round_half_even_mono in H. rewrite round_half_even_Z in H.
  rewrite Zle_Qle in H. change (inject_Z 0) with 0%Q in H. rewrite Qhundred. lra.
Qed.

Lemma round2_mono (x y : Q) : (0 <= x)%Q -> (x <= y)%Q -> (round2 x <= round2 y)%Q.
Proof.
  intros Hx H. unfold round2. apply round_binary64_mono; [now apply hundredths_nonneg |].
  assert (Hm : round_half_even (x * 100) <= round_half_even (y * 100)).
  { apply round_half_even_mono. lra. }
  rewrite Zle_Qle in Hm. rewrite !Qhundred. lra.
Qed.

Lemma round2_Z (z : Z) : 0 <= z <= 2 ^ 53 -> round2 (inject_Z z) = inject_Z z.
Proof.
  intros Hz. unfold round2.
  assert (E : round_half_even (inject_Z z * 100) = z * 100).
  { rewrite (round_half_even_comp _ (inject_Z (z * 100))).
    - apply round_half_even_Z.
    - rewrite inject_Z_mult. reflexivity. }
  rewrite E, <- (round_binary64_Z z Hz). apply round_binary64_comp.
  rewrite inject_Z_mult, Qhundred. change (inject_Z 100) with 100%Q. field.
Qed.

End Binary64.

(** ** The salary pattern and [float] *)

Lemma match_here_float (s m : string) :
  SalaryPattern.match_here s = Some m -> exists x, PyNum.py_float m = Ok x.
Proof.
  unfold SalaryPattern.match_here.
  destruct (PyStr.span_digits s) as [d r] eqn:Hs.
  destruct (span_digits_spec _ _ _ Hs) as (_ & Hd & _).
  destruct (PyNum.nonempty d) eqn:Hne; [| discriminate].
  assert (Hplain : exists x, PyNum.py_float d = Ok x).
  { unfold PyNum.py_float. rewrite (span_digits_all d Hd), Hne. eauto. }
  destruct r as [| c r']; [intros [= <-]; exact Hplain |].
  destruct (Ascii.eqb_spec c "."%char) as [-> | Hc].
  - destruct (PyStr.span_digits r') as [f r''] eqn:Hr'.
    destruct (span_digits_spec _ _ _ Hr') as (_ & Hf & _).
    destruct (PyNum.nonempty f) eqn:Hnf; intros [= <-]; [| exact Hplain].
    unfold PyNum.py_float.
    change (d ++ "." ++ f) with (d ++ String "."%char f).
    rewrite (span_digits_app d (String "."%char f) Hd eq_refl), Hne.
    cbv iota beta. rewrite Hnf, Hf. simpl. eauto.
  - assert (Some d = Some m -> exists x, PyNum.py_float m = Ok x)
      by (intros [= <-]; exact Hplain).
    destruct c as [[] [] [] [] [] [] [] []]; try assumption. now contradiction Hc.
Qed.

Lemma findall_float (s : string) (skip : nat) :
  Forall (fun m => exists x, PyNum.py_float m = Ok x) (SalaryPattern.findall_from skip s).
Proof.
  revert skip. induction s as [| c s IH]; intros skip; simpl; [constructor |].
  destruct skip as [| k]; [| apply IH].
  destruct (SalaryPattern.match_here (String c s)) as [m |] eqn:Hm; [| apply IH].
  constructor; [eapply match_here_float; eassumption | apply IH].
Qed.

Lemma comprehension_total {A B : Type} (f : A -> result B) (l : list A) :
  Forall (fun a => exists b, f a = Ok b) l -> exists bs, comprehension f l = Ok bs.
Proof.
  induction 1 as [| a l [b Hb] _ [bs Hbs]]; simpl; [eauto |].
  rewrite Hb, Hbs. unfold mbind, result_bind. eauto.
Qed.

(** ** [min], [max] and [sorted] *)

Section Builtins.

Import PyNum.

Lemma fold_min_spec (l : list Q) (x : Q) :
  let m := fold_left (fun m y => if Qlt_le_dec y m then y else m) l x in
  m ∈ x :: l /\ Forall (fun y => (m <= y)%Q) (x :: l).
Proof.
  revert x. induction l as [| y l IH]; intros x; simpl.
  - split; [apply list_elem_of_singleton; reflexivity | constructor; [lra | constructor]].
  - specialize (IH (if Qlt_le_dec y x then y else x)). simpl in IH.
    destruct IH as [Hin Hall]. inversion Hall as [| ? ? Hhd Htl]; subst.
    split.
    + rewrite !elem_of_cons in *. destruct (Qlt_le_dec y x); tauto.
    + destruct (Qlt_le_dec y x); repeat constructor; auto; lra.
Qed.

Lemma fold_max_spec (l : list Q) (x : Q) :
  let m := fold_left (fun m y => if Qlt_le_dec m y then y else m) l x in
  m ∈ x :: l /\ Forall (fun y => (y <= m)%Q) (x :: l).
Proof.
  revert x. induction l as [| y l IH]; intros x; simpl.
  - split; [apply list_elem_of_singleton; reflexivity | constructor; [lra | constructor]].
  - specialize (IH (if Qlt_le_dec x y then y else x)). simpl in IH.
    destruct IH as [Hin Hall]. inversion Hall as [| ? ? Hhd Htl]; subst.
    split.
    + rewrite !elem_of_cons in *. destruct (Qlt_le_dec x y); tauto.
    + destruct (Qlt_le_dec x y); repeat constructor; auto; lra.
Qed.

Lemma py_min_spec (l : list Q) :
  l <> [] ->
  exists m, py_min l = Ok m /\ m ∈ l /\ Forall (fun y => (m <= y)%Q) l.
Proof.
  destruct l as [| x l]; [congruence | intros _].
  eexists; split; [reflexivity | apply fold_min_spec].
Qed.

Lemma py_max_spec (l : list Q) :
  l <> [] ->
  exists m, py_max l = Ok m /\ m ∈ l /\ Forall (fun y => (y <= m)%Q) l.
Proof.
  destruct l as [| x l]; [congruence | intros _].
  eexists; split; [reflexivity | apply fold_max_spec].
Qed.

Lemma insert_sorted_perm (x : Q) (l : list Q) : insert_sorted x l ≡ₚ x :: l.
Proof.
  induction l as [| y l IH]; cbn [insert_sorted]; [reflexivity |].
  destruct (Qle_bool x y); [reflexivity |].
  rewrite IH. apply Permutation_swap.
Qed.

Lemma py_sorted_perm (l : list Q) : py_sorted l ≡ₚ l.
Proof.
  induction l as [| x l IH]; cbn [py_sorted fold_right]; [reflexivity |].
  fold (py_sorted l). now rewrite insert_sorted_perm, IH.
Qed.



End Builtins.

(** ** Texts around numbers *)

Lemma lower_char_digit (c : ascii) :
  PyStr.is_digit (PyStr.lower_char c) = PyStr.is_digit c.
Proof. destruct c as [[] [] [] [] [] [] [] []]; vm_compute; reflexivity. Qed.

Lemma no_digit_lower (s : string) : no_digit s = true -> no_digit (PyStr.lower s) = true.
Proof.
  induction s as [| c s IH]; [reflexivity |]. cbn [no_digit PyStr.lower].
  rewrite lower_char_digit, !andb_true_iff. intros [Hc Hs]. auto.
Qed.

Lemma no_digit_lstrip (s : string) : no_digit s = true -> no_digit (PyStr.lstrip s) = true.
Proof.
  induction s as [| c s IH]; [reflexivity |]. cbn [PyStr.lstrip].
  destruct (PyStr.is_space c); [| auto].
  cbn [no_digit]. rewrite andb_true_iff. intros [_ H]. auto.
Qed.

Lemma no_digit_rstrip (s : string) : no_digit s = true -> no_digit (PyStr.rstrip s) = true.
Proof.
  induction s as [| c s IH]; [reflexivity |]. cbn [no_digit PyStr.rstrip].
  rewrite andb_true_iff. intros [Hc Hs]. specialize (IH Hs).
  destruct (PyStr.rstrip s) as [| c' r].
  - destruct (PyStr.is_space c); cbn [no_digit]; [reflexivity | now rewrite Hc].
  - cbn [no_digit] in *. now rewrite Hc, IH.
Qed.

Lemma no_digit_remove (old s : string) (skip : nat) :
  no_digit s = true -> no_digit (PyStr.replace_from skip old "" s) = true.
Proof.
  revert skip. induction s as [| c s IH]; intros skip; [reflexivity |].
  cbn [no_digit PyStr.replace_from]. rewrite andb_true_iff. intros [Hc Hs].
  destruct skip as [| k]; [| auto].
  destruct (PyStr.startswith old (String c s)).
  - rewrite append_nil_l. auto.
  - cbn [no_digit]. rewrite Hc. cbn [andb]. auto.
Qed.

Lemma no_digit_clean (s : string) : no_digit s = true -> no_digit (clean s) = true.
Proof.
  intros H. unfold clean, PyStr.replace, PyStr.strip.
  now do 4 apply no_digit_remove; apply no_digit_rstrip, no_digit_lstrip, no_digit_lower.
Qed.

Lemma no_digit_apply_marker (table : list (string * Z)) (s : string) :
  no_digit s = true -> no_digit (snd (apply_marker table s)) = true.
Proof.
  intros H. induction table as [| [key mult] table IH]; [exact H |].
  cbn [apply_marker]. destruct (PyStr.contains key s); [| exact IH].
  cbn [snd]. now apply no_digit_remove.
Qed.

Lemma no_digit_without_marker (table : list (string * Z)) (cleaned s : string) :
  no_digit s = true -> no_digit (without_marker table cleaned s) = true.
Proof.
  intros H. unfold without_marker. destruct (find _ table) as [[key mult] |]; [| exact H].
  now apply no_digit_remove.
Qed.

Lemma no_digit_left_of (cleaned s : string) :
  no_digit s = true -> no_digit (left_of cleaned s) = true.
Proof. intros H. unfold left_of. now do 2 apply no_digit_without_marker. Qed.

Lemma no_digit_start (s : string) : no_digit s = true -> starts_with_digit s = false.
Proof.
  destruct s as [| c s]; [reflexivity |]. cbn [no_digit starts_with_digit].
  rewrite andb_true_iff, negb_true_iff. tauto.
Qed.

(** *** The pattern on such texts *)

Lemma findall_no_digit (s : string) (skip : nat) :
  no_digit s = true -> SalaryPattern.findall_from skip s = [].
Proof.
  revert skip. induction s as [| c s IH]; intros skip; [reflexivity |].
  cbn [no_digit]. rewrite andb_true_iff, negb_true_iff. intros [Hc Hs].
  cbn [SalaryPattern.findall_from]. destruct skip as [| k]; [| auto].
  unfold SalaryPattern.match_here. cbn [PyStr.span_digits]. rewrite Hc.
  cbn [PyNum.nonempty]. auto.
Qed.

Lemma findall_prefix (x s : string) :
  no_digit x = true ->
  SalaryPattern.findall_from O (x ++ s) = SalaryPattern.findall_from O s.
Proof.
  induction x as [| c x IH]; [reflexivity |].
  cbn [no_digit]. rewrite andb_true_iff, negb_true_iff. intros [Hc Hx].
  rewrite append_cons. cbn [SalaryPattern.findall_from].
  unfold SalaryPattern.match_here. cbn [PyStr.span_digits]. rewrite Hc.
  cbn [PyNum.nonempty]. auto.
Qed.

Lemma findall_from_skip (a y : string) (k : nat) :
  SalaryPattern.findall_from (String.length a + k) (a ++ y) = SalaryPattern.findall_from k y.
Proof.
  induction a as [| c a IH]; [reflexivity |].
  rewrite append_cons. cbn [String.length Nat.add SalaryPattern.findall_from]. exact IH.
Qed.

Lemma all_digits_numeric (d : string) : PyNum.all_digits d = true -> numeric d = true.
Proof.
  induction d as [| c d IH]; [reflexivity |]. cbn [PyNum.all_digits numeric].
  rewrite !andb_true_iff. intros [-> Hd]. auto.
Qed.

Lemma numeric_app (x y : string) : numeric (x ++ y) = numeric x && numeric y.
Proof.
  induction x as [| c x IH]; [reflexivity |].
  rewrite append_cons. cbn [numeric]. now rewrite IH, andb_assoc.
Qed.

(** The two spellings of a number. *)
Lemma decimal_literal_cases (n : string) :
  decimal_literal n = true ->
  exists d, d <> "" /\ PyNum.all_digits d = true /\
    (n = d \/ exists f, f <> "" /\ PyNum.all_digits f = true /\ n = d ++ "." ++ f).
Proof.
  unfold decimal_literal. destruct (PyStr.span_digits n) as [d r] eqn:Hs.
  destruct (span_digits_spec _ _ _ Hs) as (-> & Hd & _).
  rewrite andb_true_iff. intros [Hne Hr]. exists d.
  split; [destruct d; [discriminate | congruence] |]. split; [exact Hd |].
  destruct r as [| c f]; [left; now rewrite append_nil_r |].
  rewrite !andb_true_iff in Hr. destruct Hr as [[Hc Hf] Hall].
  apply Ascii.eqb_eq in Hc. subst c. right. exists f.
  split; [destruct f; [discriminate | congruence] |]. auto.
Qed.

Lemma decimal_literal_shape (n : string) :
  decimal_literal n = true -> numeric n = true /\ starts_with_digit n = true.
Proof.
  intros H. destruct (decimal_literal_cases n H) as (d & Hne & Hd & Hn).
  assert (Hstart : forall r, starts_with_digit (d ++ r) = true).
  { intros r. destruct d as [| c d]; [congruence |]. cbn [PyNum.all_digits] in Hd.
    apply andb_true_iff in Hd as [Hc _]. exact Hc. }
  destruct Hn as [-> | (f & _ & Hf & ->)].
  - split; [now apply all_digits_numeric |]. rewrite <- (append_nil_r d). apply Hstart.
  - split; [| apply Hstart]. rewrite numeric_app, (all_digits_numeric d Hd).
    rewrite append_cons, append_nil_l. cbn [numeric andb].
    rewrite (all_digits_numeric f Hf). now rewrite orb_true_r.
Qed.

Lemma decimal_literal_nonempty (n : string) : decimal_literal n = true -> n <> "".
Proof. intros H ->. discriminate H. Qed.

Lemma decimal_literal_float (n : string) :
  decimal_literal n = true -> exists x, PyNum.py_float n = Ok x.
Proof.
  intros H. destruct (decimal_literal_cases n H) as (d & Hne & Hd & Hn).
  unfold PyNum.py_float. destruct Hn as [-> | (f & Hnf & Hf & ->)].
  - rewrite (span_digits_all d Hd), (nonempty_true d Hne). eauto.
  - rewrite append_cons, append_nil_l.
    rewrite (span_digits_app d (String "."%char f) Hd eq_refl), (nonempty_true d Hne).
    cbv iota beta. rewrite (nonempty_true f Hnf), Hf. cbn [andb]. eauto.
Qed.

Lemma ends_number_start (y : string) : ends_number y = true -> starts_with_digit y = false.
Proof.
  destruct y as [| c y]; [reflexivity |]. cbn [ends_number starts_with_digit].
  rewrite andb_true_iff, negb_true_iff. tauto.
Qed.

Lemma match_here_literal (n y : string) :
  decimal_literal n = true -> ends_number y = true ->
  SalaryPattern.match_here (n ++ y) = Some n.
Proof.
  intros H Hy. destruct (decimal_literal_cases n H) as (d & Hne & Hd & Hn).
  pose proof (ends_number_start y Hy) as Hstart.
  unfold SalaryPattern.match_here. destruct Hn as [-> | (f & Hnf & Hf & ->)].
  - rewrite (span_digits_app d y Hd Hstart), (nonempty_true d Hne).
    destruct y as [| c y]; [reflexivity |].
    destruct (Ascii.eqb_spec c "."%char) as [-> | Hc].
    + cbn [ends_number] in Hy. rewrite andb_true_iff, !negb_true_iff in Hy.
      destruct Hy as [_ Hy]. cbn [Ascii.eqb Bool.eqb andb] in Hy.
      destruct y as [| c' y]; [reflexivity |].
      cbn [starts_with_digit] in Hy. cbn [PyStr.span_digits]. now rewrite Hy.
    + destruct c as [[] [] [] [] [] [] [] []]; try reflexivity. now contradiction Hc.
  - rewrite !append_assoc. rewrite append_cons, append_nil_l.
    rewrite (span_digits_app d (String "."%char (f ++ y)) Hd eq_refl), (nonempty_true d Hne).
    rewrite (span_digits_app f y Hf Hstart), (nonempty_true f Hnf).
    now rewrite append_cons, append_nil_l.
Qed.

Lemma findall_literal (n y : string) :
  decimal_literal n = true -> ends_number y = true ->
  SalaryPattern.findall_from O (n ++ y) = n :: SalaryPattern.findall_from O y.
Proof.
  intros H Hy. pose proof (match_here_literal n y H Hy) as Hm.
  destruct n as [| c n]; [discriminate H |].
  rewrite append_cons in *. cbn [SalaryPattern.findall_from]. rewrite Hm. f_equal.
  cbn [String.length]. rewrite Nat.sub_succ, Nat.sub_0_r.
  rewrite <- (Nat.add_0_r (String.length n)). apply findall_from_skip.
Qed.

Lemma no_digit_ends_number (y : string) : no_digit y = true -> ends_number y = true.
Proof.
  destruct y as [| c y]; [reflexivity |]. cbn [no_digit ends_number].
  rewrite !andb_true_iff. intros [-> Hy]. split; [reflexivity |].
  rewrite (no_digit_start y Hy). now rewrite andb_false_r.
Qed.

(** A stretch without digits that is neither empty nor a lone dot keeps the
    numbers on its two sides apart. *)
Lemma separator_ends_number (sep rest : string) :
  no_digit sep = true -> sep <> "" -> sep <> "." -> ends_number (sep ++ rest) = true.
Proof.
  intros Hd Hne Hdot. destruct sep as [| c sep]; [congruence |].
  rewrite append_cons. cbn [no_digit ends_number] in *.
  apply andb_true_iff in Hd as [-> Hd]. cbn [andb]. apply negb_true_iff.
  destruct (Ascii.eqb_spec c "."%char) as [-> | _]; [| reflexivity].
  destruct sep as [| c' sep]; [congruence |].
  rewrite append_cons. cbn [no_digit starts_with_digit andb] in *.
  apply andb_true_iff in Hd as [Hc' _]. now apply negb_true_iff in Hc'.
Qed.

(** *** Markers around a number *)

Lemma plain_numeric_differ (a c : ascii) :
  negb (PyStr.is_digit a) && negb (Ascii.eqb a ".") = true ->
  PyStr.is_digit c || Ascii.eqb c "." = true -> Ascii.eqb a c = false.
Proof.
  intros Ha Hc. destruct (Ascii.eqb_spec a c) as [-> | _]; [| reflexivity].
  destruct (PyStr.is_digit c), (Ascii.eqb c "."); discriminate.
Qed.

Lemma startswith_numeric (key n rest : string) :
  plain key = true -> key <> "" -> numeric n = true -> n <> "" ->
  PyStr.startswith key (n ++ rest) = false.
Proof.
  intros Hk Hkne Hn Hnne.
  destruct key as [| a key]; [congruence |]. destruct n as [| c n]; [congruence |].
  rewrite append_cons. cbn [plain numeric PyStr.startswith] in *.
  apply andb_true_iff in Hk as [Ha _]. apply andb_true_iff in Hn as [Hc _].
  now rewrite (plain_numeric_differ a c Ha Hc).
Qed.

Lemma startswith_before (key x n rest : string) :
  plain key = true -> numeric n = true -> n <> "" ->
  PyStr.startswith key (x ++ n ++ rest) = PyStr.startswith key x.
Proof.
  intros Hk Hn Hnne. revert key Hk. induction x as [| c x IH]; intros key Hk.
  - rewrite append_nil_l. destruct key as [| a key]; [now destruct (n ++ rest) |].
    now rewrite (startswith_numeric (String a key) n rest Hk).
  - destruct key as [| a key]; [reflexivity |].
    rewrite append_cons. cbn [PyStr.startswith].
    destruct (Ascii.eqb a c); [| reflexivity].
    apply IH. cbn [plain] in Hk. now apply andb_true_iff in Hk as [_ Hk].
Qed.

Lemma contains_empty (key : string) : key <> "" -> PyStr.contains key "" = false.
Proof. destruct key; [congruence | reflexivity]. Qed.

Lemma contains_numeric (key n y : string) :
  plain key = true -> key <> "" -> numeric n = true ->
  PyStr.contains key (n ++ y) = PyStr.contains key y.
Proof.
  intros Hk Hkne Hn. induction n as [| c n IH]; [reflexivity |].
  rewrite append_cons. cbn [PyStr.contains]. rewrite <- append_cons.
  rewrite (startswith_numeric key (String c n) y Hk Hkne Hn) by discriminate.
  cbn [numeric] in Hn. apply andb_true_iff in Hn as [_ Hn]. now apply IH.
Qed.

Lemma startswith_length (key s : string) :
  PyStr.startswith key s = true -> (String.length key <= String.length s)%nat.
Proof.
  revert s. induction key as [| a key IH]; intros s; [cbn; lia |].
  destruct s as [| c s]; [discriminate |]. cbn [PyStr.startswith String.length].
  destruct (Ascii.eqb a c); [| discriminate]. intros H. apply IH in H. lia.
Qed.

Lemma replace_numeric (key n y : string) :
  plain key = true -> key <> "" -> numeric n = true ->
  PyStr.replace_from O key "" (n ++ y) = n ++ PyStr.replace_from O key "" y.
Proof.
  intros Hk Hkne Hn. induction n as [| c n IH]; [reflexivity |].
  rewrite append_cons. cbn [PyStr.replace_from]. rewrite <- append_cons.
  rewrite (startswith_numeric key (String c n) y Hk Hkne Hn) by discriminate.
  cbn [numeric] in Hn. apply andb_true_iff in Hn as [_ Hn].
  now rewrite append_cons, (IH Hn).
Qed.

Lemma replace_around_from (key x n y : string) (skip : nat) :
  plain key = true -> key <> "" -> numeric n = true -> n <> "" ->
  (skip <= String.length x)%nat ->
  PyStr.replace_from skip key "" (x ++ n ++ y)
  = PyStr.replace_from skip key "" x ++ n ++ PyStr.replace_from O key "" y.
Proof.
  intros Hk Hkne Hn Hnne. revert skip. induction x as [| c x IH]; intros skip Hskip.
  - cbn [String.length] in Hskip. replace skip with O by lia.
    rewrite ?append_nil_l. cbn [PyStr.replace_from]. rewrite ?append_nil_l.
    now apply replace_numeric.
  - rewrite append_cons. cbn [PyStr.replace_from String.length] in *.
    destruct skip as [| k]; [| apply IH; lia].
    rewrite <- append_cons.
    rewrite (startswith_before key (String c x) n y Hk Hn Hnne).
    destruct (PyStr.startswith key (String c x)) eqn:Hs.
    + rewrite !append_nil_l. apply IH.
      apply startswith_length in Hs. cbn [String.length] in Hs. lia.
    + rewrite append_cons. f_equal. apply IH. lia.
Qed.

Lemma replace_around (key x n y : string) :
  plain key = true -> key <> "" -> numeric n = true -> n <> "" ->
  PyStr.replace key "" (x ++ n ++ y)
  = PyStr.replace key "" x ++ n ++ PyStr.replace key "" y.
Proof.
  intros Hk Hkne Hn Hnne. unfold PyStr.replace.
  apply replace_around_from; auto. lia.
Qed.

Lemma apply_marker_without (table : list (string * Z)) (cleaned : string) :
  snd (apply_marker table cleaned) = without_marker table cleaned cleaned.
Proof.
  unfold without_marker. induction table as [| [key mult] table IH]; [reflexivity |].
  cbn [apply_marker find]. destruct (PyStr.contains key cleaned); [reflexivity | exact IH].
Qed.

Lemma without_marker_around (table : list (string * Z)) (cleaned x n y : string) :
  plain_keys table = true -> numeric n = true -> n <> "" ->
  without_marker table cleaned (x ++ n ++ y)
  = without_marker table cleaned x ++ n ++ without_marker table cleaned y.
Proof.
  intros Ht Hn Hnne. unfold without_marker.
  destruct (find _ table) as [[key mult] |] eqn:Hf; [| reflexivity].
  apply find_some in Hf as [Hin _].
  unfold plain_keys in Ht. rewrite forallb_forall in Ht. specialize (Ht _ Hin).
  cbn in Ht. apply andb_true_iff in Ht as [Hk Hkne].
  apply replace_around; auto. destruct key; [discriminate | congruence].
Qed.

Lemma left_of_around (cleaned x n y : string) :
  numeric n = true -> n <> "" ->
  left_of cleaned (x ++ n ++ y) = left_of cleaned x ++ n ++ left_of cleaned y.
Proof.
  intros Hn Hnne. unfold left_of.
  rewrite (without_marker_around time_multipliers) by (reflexivity || assumption).
  now rewrite (without_marker_around multipliers) by (reflexivity || assumption).
Qed.

(** The text the pattern is run on. *)
Lemma remaining_text (cleaned : string) :
  snd (apply_marker multipliers (snd (apply_marker time_multipliers cleaned)))
  = left_of cleaned cleaned.
Proof. unfold left_of. now rewrite !apply_marker_without. Qed.


Lemma findall_two (before first between second after : string) :
  no_digit before = true -> decimal_literal first = true ->
  no_digit between = true -> between <> "" -> between <> "." ->
  decimal_literal second = true -> no_digit after = true ->
  SalaryPattern.findall (before ++ first ++ between ++ second ++ after) = [first; second].
Proof.
  intros Hb H1 Hm Hne Hdot H2 Ha. unfold SalaryPattern.findall.
  rewrite (findall_prefix before _ Hb).
  rewrite (findall_literal first _ H1 (separator_ends_number between _ Hm Hne Hdot)).
  rewrite (findall_prefix between _ Hm).
  rewrite (findall_literal second after H2 (no_digit_ends_number _ Ha)).
  now rewrite (findall_no_digit after O Ha).
Qed.

(** ** The salary parser *)

Lemma in_salary_range_spec (n : Q) :
  in_salary_range n = true <-> (10000 <= n <= 1000000)%Q.
Proof.
  unfold in_salary_range. rewrite andb_true_iff, !Qle_bool_iff.
  change (inject_Z 10000) with 10000%Q. change (inject_Z 1000000) with 1000000%Q.
  reflexivity.
Qed.

Lemma comprehension_spec {A B : Type} (f : A -> result B) (l : list A) (ys : list B) :
  comprehension f l = Ok ys -> Forall2 (fun a y => f a = Ok y) l ys.
Proof.
  revert ys. induction l as [| a l IH]; intros ys; cbn [comprehension].
  - intros [= <-]. constructor.
  - destruct (f a) as [y | e] eqn:Ha; unfold mbind at 1, result_bind at 1; [| discriminate].
    destruct (comprehension f l) as [ys' | e]; unfold mbind, result_bind; [| discriminate].
    intros [= <-]. constructor; auto.
Qed.

(** An annual figure that is finite and positive is a double. *)
Lemma annual_figure_representable (mm tm : Z) (n : string) (x : Q) :
  annual_figure mm tm n = Ok (PyNum.Finite x) -> (0 < x)%Q -> representable x.
Proof.
  unfold annual_figure. destruct (PyNum.py_float n) as [[a |] | e];
    unfold mbind, result_bind; try discriminate.
  unfold PyNum.scale, PyNum.overflow.
  destruct (Qle_bool _ (PyNum.fmul a _)); [discriminate |].
  destruct (Qle_bool _ _); [discriminate |].
  intros [= <-] Hx. unfold PyNum.fmul in *. now apply positive_rounding in Hx as [_ Hx].
Qed.

Lemma annual_salaries_spec (numbers : list PyNum.pyfloat) (x : Q) :
  In x (annual_salaries numbers) <->
  In (PyNum.Finite x) numbers /\ in_salary_range x = true.
Proof.
  unfold annual_salaries. rewrite in_flat_map. split.
  - intros ([y |] & Hin & Hx); [| destruct Hx].
    destruct (in_salary_range y) eqn:Hy; [| destruct Hx].
    destruct Hx as [<- | []]. auto.
  - intros [Hin Hx]. exists (PyNum.Finite x). split; [exact Hin |].
    rewrite Hx. now left.
Qed.

(** The annual figures of a text are doubles inside the salary range. *)
Lemma salary_numbers_spec (text : string) (numbers : list Q) :
  salary_numbers text = Ok numbers ->
  Forall (fun n => representable n /\ (10000 <= n <= 1000000)%Q) numbers.
Proof.
  unfold salary_numbers.
  destruct (apply_marker time_multipliers (clean text)) as [tm c1].
  destruct (apply_marker multipliers c1) as [mm c2].
  destruct (comprehension _ _) as [ns | e] eqn:Hc; unfold mbind, result_bind; [| discriminate].
  intros [= <-]. apply comprehension_spec in Hc.
  apply List.Forall_forall. intros x Hx. apply annual_salaries_spec in Hx as [Hin Hr].
  apply in_salary_range_spec in Hr. split; [| exact Hr].
  clear -Hc Hin Hr. induction Hc as [| n y raw ns Hn _ IH]; [destruct Hin |].
  destruct Hin as [-> | Hin]; [| now apply IH].
  apply (annual_figure_representable mm tm n x Hn). lra.
Qed.

Lemma salary_numbers_total (text : string) :
  exists numbers, salary_numbers text = Ok numbers.
Proof.
  unfold salary_numbers.
  destruct (apply_marker time_multipliers (clean text)) as [tm c1].
  destruct (apply_marker multipliers c1) as [mm c2].
  edestruct (comprehension_total (annual_figure mm tm) (SalaryPattern.findall c2))
    as [ns Hns].
  - eapply Forall_impl; [apply findall_float |].
    intros m [x Hx]. unfold annual_figure. rewrite Hx. unfold mbind, result_bind. eauto.
  - rewrite Hns. unfold mbind, result_bind. eauto.
Qed.

Lemma analyze_salary_range_try_total (salary_text : pyval) :
  exists r, analyze_salary_range_try salary_text = Ok r.
Proof.
  unfold analyze_salary_range_try.
  destruct salary_text as [| z | text | truth other]; eauto.
  destruct (PyNum.nonempty text); eauto.
  destruct (salary_numbers_total text) as [numbers ->]. unfold mbind, result_bind.
  destruct (2 <=? length numbers)%nat eqn:Hlen.
  - assert (Hne : numbers <> []) by (destruct numbers; [discriminate | congruence]).
    destruct (py_min_spec numbers Hne) as (lo & -> & _).
    destruct (py_max_spec numbers Hne) as (hi & -> & _). eauto.
  - destruct numbers as [| ? [| ? ?]]; eauto.
Qed.

(** The estimate of a text, read off the annual figures it yields. *)
Lemma analyze_of_numbers (text : string) (numbers : list Q) :
  text <> "" -> salary_numbers text = Ok numbers ->
  analyze_salary_range (PyString text) =
    match numbers with
    | [] => zero_estimate
    | [salary] =>
        mkEstimate (PyNum.round2 (PyNum.fmul salary (PyNum.literal (9 # 10))))
                   (PyNum.round2 (PyNum.fmul salary (PyNum.literal (11 # 10))))
                   (PyNum.round2 salary)
    | first :: rest =>
        let lo := fold_left (fun m y => if Qlt_le_dec y m then y else m) rest first in
        let hi := fold_left (fun m y => if Qlt_le_dec m y then y else m) rest first in
        mkEstimate (PyNum.round2 lo) (PyNum.round2 hi)
                   (PyNum.round2 (PyNum.fdiv (PyNum.fadd lo hi) (PyNum.of_int 2)))
    end.
Proof.
  intros Htext Hn.
  unfold analyze_salary_range, except_zero_estimate, analyze_salary_range_try.
  rewrite (nonempty_true _ Htext), Hn. unfold mbind, result_bind.
  now destruct numbers as [| x [| y l]].
Qed.

(** The annual figures of a text in terms of its cleaned form. *)
Lemma salary_numbers_unfold (text : string) :
  let cleaned := clean text in
  let period := apply_marker time_multipliers cleaned in
  let magnitude := apply_marker multipliers (snd period) in
  salary_numbers text =
    (numbers ← comprehension (annual_figure (fst magnitude) (fst period))
                             (SalaryPattern.findall (left_of cleaned cleaned));
     Ok (annual_salaries numbers)).
Proof.
  cbv zeta. unfold salary_numbers. rewrite <- (remaining_text (clean text)).
  destruct (apply_marker time_multipliers (clean text)) as [tm c1]. cbn [fst snd].
  now destruct (apply_marker multipliers c1) as [mm c2].
Qed.

Lemma cleaned_nonempty (text : string) : clean text <> "" -> text <> "".
Proof. intros H ->. now apply H. Qed.

(** *** The shape of an estimate *)

Lemma literal_nine_tenths :
  PyNum.literal (9 # 10) = (8106479329266893 # 9007199254740992)%Q.
Proof. vm_compute. reflexivity. Qed.

Lemma literal_eleven_tenths :
  PyNum.literal (11 # 10) = (2476979795053773 # 2251799813685248)%Q.
Proof. vm_compute. reflexivity. Qed.

Lemma of_int_two : PyNum.of_int 2 = 2%Q.
Proof. vm_compute. reflexivity. Qed.

Lemma representable_fixed (x : Q) :
  (0 <= x)%Q -> representable x -> (PyNum.round_binary64 x == x)%Q.
Proof. apply round_binary64_exact. Qed.

(** The synthetic range of one figure lies around the figure. *)
Lemma point_spread (N : Q) :
  representable N -> (10000 <= N <= 1000000)%Q ->
  let low := PyNum.fmul N (PyNum.literal (9 # 10)) in
  let high := PyNum.fmul N (PyNum.literal (11 # 10)) in
  (9000 <= low /\ low <= N /\ N <= high /\ PyNum.round2 high <= 1100000)%Q /\
  (exists k : Z,
     10000 <= k <= 1000000 /\ (low <= inject_Z k)%Q /\ (inject_Z (k + 1) <= high)%Q).
Proof.
  intros Hr HN low high. subst low high.
  rewrite literal_nine_tenths, literal_eleven_tenths. unfold PyNum.fmul.
  set (a := (8106479329266893 # 9007199254740992)%Q).
  set (b := (2476979795053773 # 2251799813685248)%Q).
  assert (Ha : (9 # 10 <= a /\ a <= 95 # 100)%Q) by (split; vm_compute; discriminate).
  assert (Hb : (11 # 10 <= b)%Q) by (vm_compute; discriminate).
  assert (HNa : (N * (9 # 10) <= N * a /\ N * a <= N * (95 # 100))%Q).
  { split; apply Qmult_le_l; lra. }
  assert (HNb : (N * (11 # 10) <= N * b)%Q) by (apply Qmult_le_l; lra).
  assert (HN1 : (N * b <= 1000000 * b)%Q) by (apply Qmult_le_compat_r; [lra | lra]).
  pose proof (representable_fixed N ltac:(lra) Hr) as HfixN.
  assert (Hint : forall z : Z, 0 <= z <= 2 ^ 53 ->
            (PyNum.round_binary64 (inject_Z z) == inject_Z z)%Q).
  { intros z Hz. now rewrite round_binary64_Z. }
  pose proof (Hint 9000 ltac:(lia)) as H9. change (inject_Z 9000) with 9000%Q in H9.
  pose proof (round_binary64_mono 9000 (N * a) ltac:(lra) ltac:(lra)) as Hlow.
  pose proof (round_binary64_mono (N * a) N ltac:(lra) ltac:(lra)) as Hlow'.
  pose proof (round_binary64_mono N (N * b) ltac:(lra) ltac:(lra)) as Hhigh.
  pose proof (round_binary64_mono (N * b) (1000000 * b) ltac:(lra) HN1) as Hhigh'.
  assert (Htop : PyNum.round2 (PyNum.round_binary64 (1000000 * b)) = 1100000%Q)
    by (vm_compute; reflexivity).
  split.
  - repeat split; try lra.
    rewrite <- Htop. apply round2_mono; [| exact Hhigh'].
    apply round_binary64_nonneg. lra.
  - set (k := Qfloor N).
    pose proof (Qfloor_le N) as Hk1. pose proof (Qlt_floor N) as Hk2. fold k in Hk1, Hk2.
    rewrite inject_Z_plus in Hk2. change (inject_Z 1) with 1%Q in Hk2.
    assert (Hk : 10000 <= k <= 1000000).
    { split.
      - pose proof (Qfloor_resp_le 10000 N (proj1 HN)) as Hf.
        change 10000%Q with (inject_Z 10000) in Hf. now rewrite Qfloor_Z in Hf.
      - rewrite Zle_Qle. change (inject_Z 1000000) with 1000000%Q. lra. }
    assert (Hkq : (10000 <= inject_Z k)%Q).
    { change 10000%Q with (inject_Z 10000). rewrite <- Zle_Qle. lia. }
    exists k. split; [exact Hk |]. split.
    + pose proof (round_binary64_mono (N * a) (inject_Z k) ltac:(lra) ltac:(lra)) as H.
      rewrite (Hint k) in H by lia. exact H.
    + rewrite inject_Z_plus. change (inject_Z 1) with 1%Q.
      assert (H0 : (0 <= inject_Z k + 1)%Q) by lra.
      pose proof (round_binary64_mono (inject_Z k + 1) (N * b) H0 ltac:(lra)) as H.
      assert (E : PyNum.round_binary64 (inject_Z k + 1)
                  = PyNum.round_binary64 (inject_Z (k + 1))).
      { apply round_binary64_comp. rewrite inject_Z_plus. reflexivity. }
      rewrite E, round_binary64_Z in H by lia.
      rewrite inject_Z_plus in H. exact H.
Qed.

(** The middle of two doubles lies between them. *)
Lemma midpoint_between (lo hi : Q) :
  representable lo -> representable hi -> (0 <= lo)%Q -> (lo <= hi)%Q ->
  (lo <= PyNum.fdiv (PyNum.fadd lo hi) (PyNum.of_int 2) <= hi)%Q.
Proof.
  intros Hrl Hrh H0 Hle. rewrite of_int_two. unfold PyNum.fdiv, PyNum.fadd.
  pose proof (representable_fixed lo H0 Hrl) as Hl.
  pose proof (representable_fixed hi ltac:(lra) Hrh) as Hh.
  pose proof (representable_fixed (2 * lo) ltac:(lra) (representable_double lo Hrl)) as Hl2.
  pose proof (representable_fixed (2 * hi) ltac:(lra) (representable_double hi Hrh)) as Hh2.
  pose proof (round_binary64_mono (2 * lo) (lo + hi) ltac:(lra) ltac:(lra)) as H1.
  pose proof (round_binary64_mono (lo + hi) (2 * hi) ltac:(lra) ltac:(lra)) as H2.
  set (s := PyNum.round_binary64 (lo + hi)) in *.
  assert (Hs : (s / 2 == s * (1 # 2))%Q) by reflexivity.
  pose proof (round_binary64_mono lo (s / 2) H0 ltac:(rewrite Hs; lra)) as H3.
  pose proof (round_binary64_mono (s / 2) hi ltac:(rewrite Hs; lra) ltac:(rewrite Hs; lra)) as H4.
  lra.
Qed.

(** An estimate is zero, or comes from one figure, or from the smallest and
    the largest of several figures; the figures are doubles inside the
    salary range. *)
Lemma analyze_cases (salary_text : pyval) :
  analyze_salary_range salary_text = zero_estimate \/
  (exists N : Q, representable N /\ (10000 <= N <= 1000000)%Q /\
     analyze_salary_range salary_text =
       mkEstimate (PyNum.round2 (PyNum.fmul N (PyNum.literal (9 # 10))))
                  (PyNum.round2 (PyNum.fmul N (PyNum.literal (11 # 10))))
                  (PyNum.round2 N)) \/
  (exists lo hi : Q, representable lo /\ representable hi /\
     (10000 <= lo)%Q /\ (lo <= hi)%Q /\ (hi <= 1000000)%Q /\
     analyze_salary_range salary_text =
       mkEstimate (PyNum.round2 lo) (PyNum.round2 hi)
                  (PyNum.round2 (PyNum.fdiv (PyNum.fadd lo hi) (PyNum.of_int 2)))).
Proof.
  destruct salary_text as [| z | text | truth other]; try (left; reflexivity).
  destruct text as [| c text]; [left; reflexivity |].
  destruct (salary_numbers_total (String c text)) as [numbers Hn].
  pose proof (salary_numbers_spec _ _ Hn) as Hrange. rewrite Forall_forall in Hrange.
  assert (Htext : String c text <> "") by discriminate.
  rewrite (analyze_of_numbers _ _ Htext Hn).
  destruct numbers as [| first [| second rest]]; [now left | |].
  - right. left. exists first.
    destruct (Hrange first) as [Hr HN]; [apply list_elem_of_singleton; reflexivity |].
    auto.
  - right. right.
    destruct (fold_min_spec (second :: rest) first) as [Hlo_in Hlo].
    destruct (fold_max_spec (second :: rest) first) as [Hhi_in Hhi].
    rewrite Forall_forall in Hlo.
    destruct (Hrange _ Hlo_in) as [Hrl Hl]. destruct (Hrange _ Hhi_in) as [Hrh Hh].
    eexists _, _. split; [exact Hrl |]. split; [exact Hrh |].
    split; [exact (proj1 Hl) |]. split; [exact (Hlo _ Hhi_in) |].
    split; [exact (proj2 Hh) | reflexivity].
Qed.

(** Rounding to two decimals keeps a whole number below [2 ^ 53]. *)
Lemma round2_whole (z : Z) : 0 <= z <= 2 ^ 53 -> (PyNum.round2 (inject_Z z) == inject_Z z)%Q.
Proof. intros Hz. now rewrite round2_Z. Qed.

(** The order and the bounds of the three fields. *)
Lemma estimate_order (salary_text : pyval) :
  let r := analyze_salary_range salary_text in
  r = zero_estimate \/
  ((9000 <= min_salary r)%Q /\ (min_salary r <= average_salary r)%Q /\
   (average_salary r <= max_salary r)%Q /\ (max_salary r <= 1100000)%Q /\
   (10000 <= average_salary r <= 1000000)%Q).
Proof.
  intros r. subst r.
  pose proof (round2_whole 9000 ltac:(lia)) as H9.
  pose proof (round2_whole 10000 ltac:(lia)) as H1.
  pose proof (round2_whole 1000000 ltac:(lia)) as H10.
  change (inject_Z 9000) with 9000%Q in H9. change (inject_Z 10000) with 10000%Q in H1.
  change (inject_Z 1000000) with 1000000%Q in H10.
  destruct (analyze_cases salary_text)
    as [-> | [(N & Hr & HN & ->) | (lo & hi & Hrl & Hrh & Hlo & Hle & Hhi & ->)]];
    [now left | right; cbn [min_salary max_salary average_salary] ..].
  - destruct (point_spread N Hr HN) as [(Ha & Hb & Hc & Hd) _].
    set (low := PyNum.fmul N (PyNum.literal (9 # 10))) in *.
    set (high := PyNum.fmul N (PyNum.literal (11 # 10))) in *.
    assert (H9' : (0 <= 9000)%Q) by lra. assert (Hl0 : (0 <= low)%Q) by lra.
    assert (HN0 : (0 <= N)%Q) by lra.
    pose proof (round2_mono 9000 low H9' Ha).
    pose proof (round2_mono low N Hl0 Hb).
    pose proof (round2_mono N high HN0 Hc).
    pose proof (round2_mono 10000 N ltac:(lra) ltac:(lra)).
    pose proof (round2_mono N 1000000 ltac:(lra) ltac:(lra)).
    repeat split; lra.
  - destruct (midpoint_between lo hi Hrl Hrh ltac:(lra) Hle) as [Hm1 Hm2].
    set (mid := PyNum.fdiv (PyNum.fadd lo hi) (PyNum.of_int 2)) in *.
    assert (Hl0 : (0 <= lo)%Q) by lra. assert (Hm0 : (0 <= mid)%Q) by lra.
    assert (Hh0 : (0 <= hi)%Q) by lra.
    pose proof (round2_mono 10000 lo ltac:(lra) Hlo).
    pose proof (round2_mono lo mid Hl0 Hm1).
    pose proof (round2_mono mid hi Hm0 Hm2).
    pose proof (round2_mono hi 1000000 Hh0 Hhi).
    repeat split; lra.
Qed.

(** *** Texts with one number and with two *)


Lemma salary_numbers_two (text before first between second after : string) :
  clean text = before ++ first ++ between ++ second ++ after ->
  no_digit before = true -> decimal_literal first = true ->
  no_digit between = true -> decimal_literal second = true -> no_digit after = true ->
  left_of (clean text) between <> "" -> left_of (clean text) between <> "." ->
  let period := apply_marker time_multipliers (clean text) in
  let magnitude := apply_marker multipliers (snd period) in
  salary_numbers text =
    (a ← annual_figure (fst magnitude) (fst period) first;
     b ← annual_figure (fst magnitude) (fst period) second;
     Ok (annual_salaries [a; b])).
Proof.
  intros Hc Hb H1 Hm H2 Ha Hne Hdot. rewrite salary_numbers_unfold. cbv zeta.
  destruct (decimal_literal_shape first H1) as [Hnum1 _].
  destruct (decimal_literal_shape second H2) as [Hnum2 _].
  pose proof (left_of_around (clean text) before first (between ++ second ++ after) Hnum1
                (decimal_literal_nonempty _ H1)) as E.
  rewrite (left_of_around (clean text) between second after Hnum2
             (decimal_literal_nonempty _ H2)) in E.
  rewrite <- Hc in E. rewrite E.
  rewrite (findall_two _ first _ second _ (no_digit_left_of _ _ Hb) H1
             (no_digit_left_of _ _ Hm) Hne Hdot H2 (no_digit_left_of _ _ Ha)).
  cbn [comprehension].
  destruct (annual_figure _ _ first); [| reflexivity].
  destruct (annual_figure _ _ second); reflexivity.
Qed.

Lemma literal_text_nonempty (text before n rest : string) :
  clean text = before ++ n ++ rest -> decimal_literal n = true -> text <> "".
Proof.
  intros Hc Hn. apply cleaned_nonempty. rewrite Hc.
  destruct before; [| discriminate]. rewrite append_nil_l.
  destruct n; [discriminate Hn | discriminate].
Qed.


Lemma py_min_pair (A B : Q) :
  fold_left (fun m y => if Qlt_le_dec y m then y else m) [B] A = Qmin A B.
Proof.
  cbn [fold_left]. unfold Qmin, GenericMinMax.gmin.
  destruct (Qlt_le_dec B A) as [H | H], (Qcompare_spec A B) as [E | L | G];
    try reflexivity; exfalso; lra.
Qed.

Lemma py_max_pair (A B : Q) :
  fold_left (fun m y => if Qlt_le_dec m y then y else m) [B] A = Qmax A B.
Proof.
  cbn [fold_left]. unfold Qmax, GenericMinMax.gmax.
  destruct (Qlt_le_dec A B) as [H | H], (Qcompare_spec A B) as [E | L | G];
    try reflexivity; exfalso; lra.
Qed.

(** The estimate of a text whose cleaned form holds two numbers that the
    marker loops do not run together. *)
Lemma two_number_estimate (text before first between second after : string) :
  clean text = before ++ first ++ between ++ second ++ after ->
  no_digit before = true -> decimal_literal first = true ->
  no_digit between = true -> decimal_literal second = true -> no_digit after = true ->
  left_of (clean text) between <> "" -> left_of (clean text) between <> "." ->
  let period := apply_marker time_multipliers (clean text) in
  let magnitude := apply_marker multipliers (snd period) in
  let annual := fun x =>
    PyNum.scale (PyNum.scale x (PyNum.of_int (fst magnitude))) (PyNum.of_int (fst period)) in
  exists a b, PyNum.py_float first = Ok a /\ PyNum.py_float second = Ok b /\
    forall A B : Q,
      annual a = PyNum.Finite A -> annual b = PyNum.Finite B ->
      in_salary_range A = true -> in_salary_range B = true ->
      analyze_salary_range (PyString text) =
        mkEstimate (PyNum.round2 (Qmin A B)) (PyNum.round2 (Qmax A B))
          (PyNum.round2 (PyNum.fdiv (PyNum.fadd (Qmin A B) (Qmax A B)) (PyNum.of_int 2))).
Proof.
  intros Hc Hb H1 Hm H2 Ha Hne Hdot period magnitude annual.
  destruct (decimal_literal_float first H1) as [a Hfa].
  destruct (decimal_literal_float second H2) as [b Hfb].
  exists a, b. split; [exact Hfa |]. split; [exact Hfb |].
  intros A B HA HB HinA HinB.
  pose proof (salary_numbers_two text before first between second after
                Hc Hb H1 Hm H2 Ha Hne Hdot) as Hs. cbv zeta in Hs.
  fold period in Hs. fold magnitude in Hs.
  unfold annual_figure in Hs. rewrite Hfa, Hfb in Hs. unfold mbind, result_bind in Hs.
  unfold annual in HA, HB. rewrite HA, HB in Hs.
  cbn [annual_salaries flat_map] in Hs. rewrite HinA, HinB in Hs. cbn [app] in Hs.
  rewrite (analyze_of_numbers _ _ (literal_text_nonempty _ _ _ _ Hc H1) Hs).
  cbv zeta. now rewrite py_min_pair, py_max_pair.
Qed.


(** ** The work-type classifier *)

Ltac split_comparison :=
  match goal with
  | |- context [Z.ltb ?x ?y] => is_var x; is_var y; destruct (Z.ltb_spec x y)
  | |- context [Z.eqb ?x ?y] => is_var x; is_var y; destruct (Z.eqb_spec x y)
  end; cbn -[Z.ltb Z.eqb].

Ltac close_case := repeat split; (reflexivity || lia).

(** The decision, case by case on the three scores. *)
Lemma decide_three (a b c : Z) :
  let r := decide_work_type [(OnSite, a); (Remote, b); (Hybrid, c)] in
  (a <= 0 /\ b <= 0 /\ c <= 0 /\ r = Unknown) \/
  (r = Remote /\ 0 < b /\ a <= b /\ c <= b) \/
  (r = Hybrid /\ 0 < c /\ a <= c /\ b < c) \/
  (r = OnSite /\ 0 < a /\ b < a /\ c < a).
Proof.
  cbn -[Z.ltb Z.eqb].
  destruct (Z.ltb_spec 0 a) as [Ha | Ha], (Z.ltb_spec 0 b) as [Hb | Hb],
           (Z.ltb_spec 0 c) as [Hc | Hc].
  all: cbn -[Z.ltb Z.eqb].
  all: repeat split_comparison.
  all: try (exfalso; lia).
  all: solve [ left; close_case | right; left; close_case
             | right; right; left; close_case | right; right; right; close_case ].
Qed.

Lemma bump_keys (w : WorkType) (delta : Z) (matches : list (WorkType * Z)) :
  map fst (bump w delta matches) = map fst matches.
Proof.
  unfold bump. induction matches as [| [k v] m IH]; [reflexivity |].
  cbn [map]. rewrite IH. now destruct (work_type_eqb k w).
Qed.

Lemma scan_keyword_keys (d : string) (w : WorkType) (matches : list (WorkType * Z))
    (keyword : string) :
  map fst (scan_keyword d w matches keyword) = map fst matches.
Proof.
  unfold scan_keyword.
  repeat match goal with |- context [if ?b then _ else _] => destruct b end;
    now rewrite ?bump_keys.
Qed.

Lemma scan_keywords_keys (d : string) (w : WorkType) (keywords : list string)
    (matches : list (WorkType * Z)) :
  map fst (fold_left (scan_keyword d w) keywords matches) = map fst matches.
Proof.
  revert matches. induction keywords as [| kw kws IH]; intros matches; [reflexivity |].
  cbn [fold_left]. now rewrite IH, scan_keyword_keys.
Qed.

(** The scoring loops keep the three keys, in their order. *)
Lemma score_matches_shape (d : string) :
  exists a b c, score_matches d = [(OnSite, a); (Remote, b); (Hybrid, c)].
Proof.
  assert (Hkeys : map fst (score_matches d) = [OnSite; Remote; Hybrid]).
  { assert (Hgen : forall table (m : list (WorkType * Z)),
      map fst (fold_left (fun matches '(work_type, keywords) =>
                 fold_left (scan_keyword d work_type) keywords matches) table m)
      = map fst m).
    { induction table as [| [w kws] table IH]; intros m; [reflexivity |].
      cbn [fold_left]. now rewrite IH, scan_keywords_keys. }
    unfold score_matches. now rewrite Hgen. }
  destruct (score_matches d) as [| [k1 a] [| [k2 b] [| [k3 c] [| ? ?]]]]; try discriminate.
  injection Hkeys as -> -> ->. eauto.
Qed.

Lemma categories_spec (w : WorkType) : w ∈ categories <-> w <> Unknown.
Proof.
  unfold categories. cbn. rewrite !elem_of_cons, elem_of_nil.
  destruct w; split; intros H; try congruence; try tauto.
  destruct H as [H | [H | [H | []]]]; discriminate.
Qed.

Lemma bump_item (w w' : WorkType) (delta a b c : Z) :
  w <> Unknown ->
  matches_item (bump w delta [(OnSite, a); (Remote, b); (Hybrid, c)]) w'
  = matches_item [(OnSite, a); (Remote, b); (Hybrid, c)] w'
    + (if work_type_eqb w' w then delta else 0).
Proof. intros Hw. destruct w, w'; try congruence; cbn; lia. Qed.

Lemma bump_shape (w : WorkType) (delta a b c : Z) :
  exists a' b' c',
    bump w delta [(OnSite, a); (Remote, b); (Hybrid, c)]
    = [(OnSite, a'); (Remote, b'); (Hybrid, c')].
Proof. destruct w; cbn; eauto. Qed.

Lemma scan_keyword_item (d : string) (w w' : WorkType) (keyword : string) (a b c : Z) :
  w <> Unknown ->
  (exists a' b' c',
      scan_keyword d w [(OnSite, a); (Remote, b); (Hybrid, c)] keyword
      = [(OnSite, a'); (Remote, b'); (Hybrid, c')]) /\
  matches_item (scan_keyword d w [(OnSite, a); (Remote, b); (Hybrid, c)] keyword) w'
  = matches_item [(OnSite, a); (Remote, b); (Hybrid, c)] w'
    + (if work_type_eqb w' w then keyword_delta d keyword else 0).
Proof.
  intros Hw. unfold scan_keyword, keyword_delta.
  destruct (PyStr.contains keyword d);
    [destruct (existsb _ context_markers) |];
    destruct (PyStr.contains ("not " ++ keyword) d || PyStr.contains ("no " ++ keyword) d).
  all: repeat match goal with
       | |- context [bump ?k ?delta [(OnSite, ?x); (Remote, ?y); (Hybrid, ?z)]] =>
           let H := fresh "H" in
           pose proof (bump_item k w' delta x y z Hw) as H;
           let E := fresh "E" in
           destruct (bump_shape k delta x y z) as (? & ? & ? & E); rewrite E in *
       end.
  all: split; [eauto |].
  all: destruct (work_type_eqb w' w); cbv iota in *; lia.
Qed.

Lemma scan_keywords_item (d : string) (w w' : WorkType) (keywords : list string) :
  w <> Unknown ->
  forall a b c : Z,
    (exists a' b' c',
        fold_left (scan_keyword d w) keywords [(OnSite, a); (Remote, b); (Hybrid, c)]
        = [(OnSite, a'); (Remote, b'); (Hybrid, c')]) /\
    matches_item
      (fold_left (scan_keyword d w) keywords [(OnSite, a); (Remote, b); (Hybrid, c)]) w'
    = matches_item [(OnSite, a); (Remote, b); (Hybrid, c)] w'
      + (if work_type_eqb w' w then Zsum (map (keyword_delta d) keywords) else 0).
Proof.
  intros Hw. induction keywords as [| kw kws IH]; intros a b c; cbn [fold_left map Zsum fold_right].
  - split; [eauto |]. destruct (work_type_eqb w' w); lia.
  - destruct (scan_keyword_item d w w' kw a b c Hw) as [(a' & b' & c' & Hshape) Hitem].
    rewrite Hshape in *. destruct (IH a' b' c') as [Hshape' Hitem'].
    split; [exact Hshape' |]. rewrite Hitem', Hitem. fold (Zsum (map (keyword_delta d) kws)).
    destruct (work_type_eqb w' w); lia.
Qed.

(** The score of a category is the sum of what its keywords add. *)
Lemma category_score (d : string) (w : WorkType) :
  w ∈ categories ->
  matches_item (score_matches d) w = Zsum (map (keyword_delta d) (keywords_of w)).
Proof.
  intros Hw.
  set (on := ["on-site"; "onsite"; "in office"; "in-office"; "office based";
              "office-based"; "on location"; "on-location"; "physical location"]).
  set (re := ["remote"; "work from home"; "wfh"; "virtual"; "telecommute";
              "telework"; "100% remote"; "fully remote"]).
  set (hy := ["hybrid"; "flexible"; "partially remote"; "remote optional";
              "flexible work arrangement"; "mix of remote and office"]).
  change (score_matches d) with
    (fold_left (scan_keyword d Hybrid) hy
       (fold_left (scan_keyword d Remote) re
          (fold_left (scan_keyword d OnSite) on [(OnSite, 0); (Remote, 0); (Hybrid, 0)]))).
  destruct (scan_keywords_item d OnSite w on ltac:(discriminate) 0 0 0)
    as [(a1 & b1 & c1 & H1) I1].
  rewrite H1 in *.
  destruct (scan_keywords_item d Remote w re ltac:(discriminate) a1 b1 c1)
    as [(a2 & b2 & c2 & H2) I2].
  rewrite H2 in *.
  destruct (scan_keywords_item d Hybrid w hy ltac:(discriminate) a2 b2 c2)
    as [(a3 & b3 & c3 & H3) I3].
  rewrite I3, I2, I1.
  apply categories_spec in Hw.
  destruct w; try congruence; cbn [work_type_eqb matches_item find];
    unfold keywords_of; cbn [find work_type_keywords work_type_eqb]; fold on re hy; lia.
Qed.

(** ** The skill extractor and the skill counts *)

Lemma common_skills_lower (s : string) : s ∈ common_skills -> PyStr.lower s = s.
Proof.
  unfold common_skills. rewrite elem_of_list_to_set, !elem_of_cons, elem_of_nil.
  intros H. repeat (destruct H as [-> | H]; [reflexivity |]). contradiction.
Qed.

Lemma Counter_from (l : list string) (counts : gmap string nat) (x : string) :
  skill_count
    (fold_left (fun counts x => <[x := S (default O (counts !! x))]> counts) l counts) x
  = (skill_count counts x + count_occ string_dec l x)%nat.
Proof.
  revert counts. induction l as [| y l IH]; intros counts; cbn [fold_left count_occ].
  - lia.
  - rewrite IH. unfold skill_count. destruct (string_dec y x) as [-> | Hne].
    + rewrite lookup_insert_eq. cbn. lia.
    + now rewrite lookup_insert_ne.
Qed.

Lemma Counter_count (l : list string) (x : string) :
  skill_count (Counter l) x = count_occ string_dec l x.
Proof.
  unfold Counter. rewrite Counter_from. unfold skill_count. now rewrite lookup_empty.
Qed.

(** A set lists each of its elements once. *)
Lemma count_elements (skills : gset string) (x : string) :
  count_occ string_dec (elements skills) x
  = if bool_decide (x ∈ skills) then 1%nat else 0%nat.
Proof.
  pose proof (proj1 (NoDup_ListNoDup _) (NoDup_elements skills)) as Hnd.
  pose proof (proj1 (NoDup_count_occ string_dec _) Hnd x) as Hle.
  case_bool_decide as Hx.
  - apply elem_of_elements, list_elem_of_In in Hx.
    apply (count_occ_In string_dec) in Hx. lia.
  - apply count_occ_not_In. intros Hin. apply Hx, elem_of_elements, list_elem_of_In, Hin.
Qed.

Lemma filter_length_le {A : Type} (f : A -> bool) (l : list A) :
  (length (List.filter f l) <= length l)%nat.
Proof. induction l as [| a l IH]; cbn; [lia | destruct (f a); cbn; lia]. Qed.

Section SkillFacts.

Variable nlp : string -> list string.

Lemma add_known_spec (s x : string) (skills : gset string) :
  s ∈ (if bool_decide (x ∈ common_skills) then {[x]} ∪ skills else skills) <->
  s ∈ skills \/ (s = x /\ s ∈ common_skills).
Proof.
  case_bool_decide as Hx; rewrite ?elem_of_union, ?elem_of_singleton.
  - split; [intros [-> | H]; auto | intros [H | [-> _]]; auto].
  - split; [auto | intros [H | [-> H]]; [exact H | contradiction]].
Qed.

(** The loop invariant: from index [i] on, the known tokens and bigrams of
    [doc] are added to [skills], and nothing else is. *)
Lemma scan_tokens_spec (doc : list string) :
  forall (rest : list string) (i : nat) (skills : gset string),
    (forall k : nat, rest !! k = doc !! (i + k)%nat) ->
    forall s : string,
      s ∈ scan_tokens doc i rest skills <->
      s ∈ skills \/ (s ∈ common_skills /\ exists j, (i <= j)%nat /\ found_at doc j s).
Proof.
  induction rest as [| token rest IH]; intros i skills Hdoc s.
  - cbn [scan_tokens]. split; [auto |].
    intros [Hs | (_ & j & Hj & Hfound)]; [exact Hs | exfalso].
    specialize (Hdoc (j - i)%nat). replace (i + (j - i))%nat with j in Hdoc by lia.
    rewrite lookup_nil in Hdoc. destruct Hfound as [H | (a & b & H & _)]; congruence.
  - cbn [scan_tokens]. rewrite IH.
    2: { intros k. rewrite Nat.add_succ_comm. exact (Hdoc (S k)). }
    assert (Htok : doc !! i = Some token).
    { specialize (Hdoc O). cbn in Hdoc. rewrite Nat.add_0_r in Hdoc. congruence. }
    assert (Hnext : (i <? length doc - 1)%nat = true <-> is_Some (doc !! (i + 1)%nat)).
    { rewrite Nat.ltb_lt, lookup_lt_is_Some. apply lookup_lt_Some in Htok. lia. }
    assert (Hsplit : forall P : nat -> Prop,
               (exists j, (i <= j)%nat /\ P j) <-> P i \/ exists j, (S i <= j)%nat /\ P j).
    { intros P. split.
      - intros (j & Hj & HP). destruct (decide (j = i)) as [-> | Hne]; [auto |].
        right. exists j. split; [lia | exact HP].
      - intros [HP | (j & Hj & HP)]; [exists i | exists j]; split; auto; lia. }
    rewrite (Hsplit (fun j => found_at doc j s)). unfold found_at at 2.
    replace (S i) with (i + 1)%nat by lia. rewrite Htok.
    destruct (i <? length doc - 1)%nat eqn:Hlt.
    + destruct (proj1 Hnext eq_refl) as [next Hn]. rewrite Hn.
      rewrite !add_known_spec. split.
      * intros [[[H | [-> H]] | [-> H]] | (H & H')]; auto.
        right. split; [exact H |]. left. right. eauto.
      * intros [H | (Hc & [[[= <-] | (a & b & [= <-] & [= <-] & ->)] | H])]; auto.
    + assert (Hnone : doc !! (i + 1)%nat = None).
      { destruct (doc !! (i + 1)%nat) eqn:E; [| reflexivity].
        assert (false = true) by (apply Hnext; eauto). discriminate. }
      rewrite Hnone, add_known_spec. split.
      * intros [[H | [-> H]] | (H & H')]; auto.
      * intros [H | (Hc & [[[= <-] | (a & b & _ & [=] & _)] | H])]; auto.
Qed.

Lemma extract_skills_spec (text s : string) :
  s ∈ extract_skills nlp text <->
  s ∈ common_skills /\ exists j, found_at (nlp (PyStr.lower text)) j s.
Proof.
  unfold extract_skills. rewrite scan_tokens_spec by reflexivity.
  split.
  - intros [H | (Hc & j & _ & Hj)]; [now apply elem_of_empty in H | eauto].
  - intros (Hc & j & Hj). right. split; [exact Hc |]. exists j. split; [lia | exact Hj].
Qed.

Lemma collect_skills_count (jobs : list job) :
  forall (acc all_skills : list string) (x : string),
    collect_skills nlp jobs acc = Ok all_skills ->
    count_occ string_dec all_skills x
    = (count_occ string_dec acc x + length (List.filter (job_mentions nlp x) jobs))%nat.
Proof.
  induction jobs as [| j jobs IH]; intros acc all_skills x; cbn [collect_skills List.filter].
  - intros [= <-]. cbn. lia.
  - unfold job_mentions at 1.
    destruct (description_text (py_get "description" (PyString "") j)) as [text | e];
      unfold mbind, result_bind; [| discriminate].
    intros H. rewrite (IH _ _ x H), count_occ_app, count_elements.
    destruct (bool_decide (x ∈ extract_skills nlp text)); cbn [length]; lia.
Qed.

(** Listings whose descriptions are texts never make the rollup fail. *)
Lemma get_skill_trends_total (jobs : list job) :
  Forall (fun j : job => exists text,
            py_get "description" (PyString "") j = PyString text) jobs ->
  exists trends, get_skill_trends nlp jobs = Ok trends.
Proof.
  unfold get_skill_trends. intros Hjobs. generalize (@nil string).
  induction Hjobs as [| j jobs [text Hj] _ IH]; intros acc; cbn [collect_skills].
  - unfold mbind, result_bind. eauto.
  - rewrite Hj. cbn [description_text]. unfold mbind at 2, result_bind at 2. apply IH.
Qed.

End SkillFacts.

(** ** The salary rollup *)

Lemma collect_salary_spec (salaries : list Q) (j : job) :
  collect_salary salaries j = (salaries ++ collected_averages [j])%list.
Proof.
  unfold collect_salary, collect_salary_try, collected_averages, listing_estimate,
    py_get, py_item, append_positive.
  cbn [flat_map]. rewrite app_nil_r.
  destruct (j !! "salary_range") as [v |] eqn:Hr; cbn [from_option id].
  - destruct (truthy v); unfold mbind, result_bind.
    + destruct (Qlt_le_dec 0 _); [reflexivity | now rewrite app_nil_r].
    + destruct (j !! "salary") as [v' |] eqn:Hs; cbn [fmap option_fmap option_map].
      * rewrite bool_decide_eq_true_2 by eauto.
        destruct (Qlt_le_dec 0 _); [reflexivity | now rewrite app_nil_r].
      * rewrite bool_decide_eq_false_2 by (intros [? ?]; discriminate).
        now rewrite app_nil_r.
  - cbn [truthy]. destruct (j !! "salary") as [v' |] eqn:Hs; cbn [fmap option_fmap option_map].
    + rewrite bool_decide_eq_true_2 by eauto. unfold mbind, result_bind.
      destruct (Qlt_le_dec 0 _); [reflexivity | now rewrite app_nil_r].
    + rewrite bool_decide_eq_false_2 by (intros [? ?]; discriminate).
      now rewrite app_nil_r.
Qed.

(** The loop appends to [salaries] what the specification collects. *)
Lemma collect_salaries_spec (jobs : list job) (salaries : list Q) :
  fold_left collect_salary jobs salaries = (salaries ++ collected_averages jobs)%list.
Proof.
  revert salaries. induction jobs as [| j jobs IH]; intros salaries; cbn [fold_left].
  - unfold collected_averages. cbn. now rewrite app_nil_r.
  - rewrite IH, collect_salary_spec, <- app_assoc. f_equal.
    unfold collected_averages. cbn [flat_map]. now rewrite app_nil_r.
Qed.

Lemma collected_averages_nil (jobs : list job) :
  Forall (fun j : job => listing_estimate j = None) jobs -> collected_averages jobs = [].
Proof.
  unfold collected_averages.
  induction 1 as [| j jobs Hj _ IH]; cbn [flat_map]; [reflexivity |].
  now rewrite Hj, IH.
Qed.

(** ** Sample runs *)

Example four_salaries :
  collected_averages four_jobs = [90000; 70000; 50000; 20000]%Q /\
  get_salary_insights PyNum.py_sum four_jobs = Ok (mkStatistics 20000 90000 57500 70000).
Proof. split; vm_compute; reflexivity. Qed.

(** The products and the rounding are those of doubles: the exact decimal
    0.9 * 85000.25 = 76500.225 would round to 76500.22, and the decimal
    12345.675 to 12345.68. *)
Example double_rounding :
  analyze_salary_range (PyString "$85,000.25")
    = mkEstimate (PyNum.literal (7650023 # 100)) (PyNum.literal (9350028 # 100))
                 (PyNum.literal (8500025 # 100)) /\
  analyze_salary_range (PyString "12345.675 - 20000")
    = mkEstimate (PyNum.literal (1234567 # 100)) 20000 (PyNum.literal (1617284 # 100)).
Proof. split; vm_compute; reflexivity. Qed.

(** With the additions made from left to right, the mean of six equal
    salaries exceeds them. *)
Example mean_above_maximum :
  get_salary_insights PyNum.py_sum
    (replicate 6 ({[ "salary_range" := PyString "10000.02" ]} : job))
  = Ok (mkStatistics (PyNum.literal (1000002 # 100)) (PyNum.literal (1000002 # 100))
          (PyNum.literal (10000020000000002 # 1000000000000))
          (PyNum.literal (1000002 # 100))) /\
  (PyNum.literal (1000002 # 100)
     < PyNum.literal (10000020000000002 # 1000000000000))%Q.
Proof. split; vm_compute; reflexivity. Qed.

Example remote_position :
  score_matches "this is a fully remote position, no office required"
    = [(OnSite, 0); (Remote, 2); (Hybrid, 0)] /\
  detect_work_type "This is a fully remote position, no office required" = Remote.
Proof. split; vm_compute; reflexivity. Qed.

Example tie_goes_to_remote :
  score_matches "hybrid or remote, onsite on fridays"
    = [(OnSite, 1); (Remote, 1); (Hybrid, 1)] /\
  detect_work_type "Hybrid or remote, onsite on Fridays" = Remote.
Proof. split; vm_compute; reflexivity. Qed.

Example tie_goes_to_hybrid :
  detect_work_type "Flexible, in office twice a week" = Hybrid /\
  detect_work_type "Not remote" = Unknown /\
  detect_work_type "" = Unknown.
Proof. repeat split; vm_compute; reflexivity. Qed.

(** * The claims *)




(** C2 (a defect of the code). The marker [thousand] is in the table with
    the multiplier 1000, but it never takes effect on a text that spells it:
    deleting the currency token [us] during cleaning cuts [thousand] down to
    [thoand], no magnitude marker is found, and ["50 thousand"] gets the zero
    estimate instead of the average 50000 that ["50k"] gets. *)
Theorem thousand_marker_lost :
  clean "50 thousand" = "50 thoand" /\
  apply_marker multipliers "50 thoand" = (1, "50 thoand") /\
  salary_numbers "50 thousand" = Ok [] /\
  analyze_salary_range (PyString "50 thousand") = zero_estimate /\
  analyze_salary_range (PyString "50k") = mkEstimate 45000 55000 50000.
Proof. repeat split; vm_compute; reflexivity. Qed.

(** C3, as the claim states it, fails: ["$80,000 - $100,000 per annum"]
    holds the two numbers 80000 and 100000, both in the salary range; but the
    letter m of [annum] is taken for the magnitude marker [m], both numbers
    are scaled out of the range, and the estimate is zero. *)
Lemma range_counterexample :
  clean "$80,000 - $100,000 per annum" = "80000 - 100000 per annum" /\
  SalaryPattern.findall "80000 - 100000 per annum" = ["80000"; "100000"] /\
  in_salary_range 80000 = true /\ in_salary_range 100000 = true /\
  (80000 <= 100000)%Q /\
  apply_marker multipliers "80000 - 100000 per annum"
    = (1000000, "80000 - 100000 per annu") /\
  analyze_salary_range (PyString "$80,000 - $100,000 per annum") = zero_estimate /\
  zero_estimate <> mkEstimate 80000 100000 90000.
Proof. repeat split; try (vm_compute; reflexivity); discriminate. Qed.

(** C3, amended. Let the cleaned text hold exactly two numbers that the
    deletion of the markers does not run together, and let [A] and [B] be
    their float values times the magnitude multiplier times the period
    multiplier (each being that of the first key of its table that occurs
    anywhere in the text, or 1).  When both lie in the salary range the
    estimate is min = the smaller, max = the larger and average =
    (min + max) / 2, each rounded to two decimals as doubles are.
    ["$80,000 - $100,000"] gets 80000, 100000 and 90000.  Whenever two or
    more annual figures survive, min and max are the smallest and the largest
    of them and the average is the middle of these two, not the mean of all
    figures: for 60000, 70000 and 100000 it is 80000. *)
Theorem range_estimate :
  (forall text before first between second after : string,
      clean text = before ++ first ++ between ++ second ++ after ->
      no_digit before = true -> decimal_literal first = true ->
      no_digit between = true -> decimal_literal second = true -> no_digit after = true ->
      left_of (clean text) between <> "" -> left_of (clean text) between <> "." ->
      let period := apply_marker time_multipliers (clean text) in
      let magnitude := apply_marker multipliers (snd period) in
      let annual := fun x =>
        PyNum.scale (PyNum.scale x (PyNum.of_int (fst magnitude)))
                    (PyNum.of_int (fst period)) in
      exists a b, PyNum.py_float first = Ok a /\ PyNum.py_float second = Ok b /\
        forall A B : Q,
          annual a = PyNum.Finite A -> annual b = PyNum.Finite B ->
          in_salary_range A = true -> in_salary_range B = true ->
          analyze_salary_range (PyString text) =
            mkEstimate (PyNum.round2 (Qmin A B)) (PyNum.round2 (Qmax A B))
              (PyNum.round2
                 (PyNum.fdiv (PyNum.fadd (Qmin A B) (Qmax A B)) (PyNum.of_int 2)))) /\
  (forall (text : string) (numbers : list Q),
      text <> "" -> salary_numbers text = Ok numbers -> (2 <= length numbers)%nat ->
      exists lo hi : Q,
        lo ∈ numbers /\ hi ∈ numbers /\
        Forall (fun x => (lo <= x <= hi)%Q) numbers /\
        analyze_salary_range (PyString text) =
          mkEstimate (PyNum.round2 lo) (PyNum.round2 hi)
                     (PyNum.round2 (PyNum.fdiv (PyNum.fadd lo hi) (PyNum.of_int 2)))) /\
  analyze_salary_range (PyString "$80,000 - $100,000") = mkEstimate 80000 100000 90000 /\
  analyze_salary_range (PyString "100k to 80k") = mkEstimate 80000 100000 90000 /\
  (salary_numbers "60000 70000 100000" = Ok [60000; 70000; 100000]%Q /\
   analyze_salary_range (PyString "60000 70000 100000") = mkEstimate 60000 100000 80000).
Proof.
  split; [| split; [| repeat split; vm_compute; reflexivity]].
  - intros text before first between second after Hc Hb H1 Hm H2 Ha Hne Hdot.
    exact (two_number_estimate text before first between second after
             Hc Hb H1 Hm H2 Ha Hne Hdot).
  - intros text numbers Htext Hn Hlen. rewrite (analyze_of_numbers _ _ Htext Hn).
    destruct numbers as [| first [| second rest]]; cbn [length] in Hlen; try lia.
    destruct (fold_min_spec (second :: rest) first) as [Hlo_in Hlo].
    destruct (fold_max_spec (second :: rest) first) as [Hhi_in Hhi].
    eexists _, _. split; [exact Hlo_in |]. split; [exact Hhi_in |].
    split; [| reflexivity].
    rewrite Forall_forall in Hlo, Hhi. apply Forall_forall. intros x Hx.
    split; [now apply Hlo | now apply Hhi].
Qed.

Lemma range_estimate_witness :
  (exists a b, PyNum.py_float "95" = Ok a /\ PyNum.py_float "120.5" = Ok b /\
     forall A B : Q,
       PyNum.scale (PyNum.scale a (PyNum.of_int 1000)) (PyNum.of_int 1) = PyNum.Finite A ->
       PyNum.scale (PyNum.scale b (PyNum.of_int 1000)) (PyNum.of_int 1) = PyNum.Finite B ->
       in_salary_range A = true -> in_salary_range B = true ->
       analyze_salary_range (PyString "$95k - $120.5k") =
         mkEstimate (PyNum.round2 (Qmin A B)) (PyNum.round2 (Qmax A B))
           (PyNum.round2
              (PyNum.fdiv (PyNum.fadd (Qmin A B) (Qmax A B)) (PyNum.of_int 2)))) /\
  exists lo hi : Q,
    lo ∈ [60000; 70000; 100000]%Q /\ hi ∈ [60000; 70000; 100000]%Q /\
    Forall (fun x => (lo <= x <= hi)%Q) [60000; 70000; 100000]%Q /\
    analyze_salary_range (PyString "60000 70000 100000") =
      mkEstimate (PyNum.round2 lo) (PyNum.round2 hi)
                 (PyNum.round2 (PyNum.fdiv (PyNum.fadd lo hi) (PyNum.of_int 2))).
Proof.
  split.
  - apply (proj1 range_estimate "$95k - $120.5k" "" "95" "k - " "120.5" "k");
      try reflexivity; vm_compute; discriminate.
  - apply (proj1 (proj2 range_estimate) "60000 70000 100000").
    + discriminate.
    + vm_compute. reflexivity.
    + cbn. lia.
Defined.


(** C5, as the claim states it, fails: a listing whose [salary_range] is the
    empty string and that has a [salary] field contributes the parsed
    [salary], so the statistics are not zero. *)
Lemma empty_salary_range_counterexample :
  Forall (fun j : job => j !! "salary_range" = Some (PyString "")) fallback_jobs /\
  get_salary_insights PyNum.py_sum fallback_jobs
    = Ok (mkStatistics 50000 50000 50000 50000) /\
  get_salary_insights PyNum.py_sum fallback_jobs <> Ok zero_statistics.
Proof.
  split; [| split].
  - repeat constructor.
  - vm_compute. reflexivity.
  - vm_compute. discriminate.
Qed.

(** C5, amended. When every listing's [salary_range] is the empty string and
    no listing has a [salary] field, [get_salary_insights] returns the
    all-zero statistics.  The generic [salary] field is used whenever the
    [salary_range] is missing or false as a condition (the empty string
    included): the listing then contributes the parsed [str(salary)].  A
    [salary_range] that is true as a condition is parsed itself, whatever the
    [salary] field holds. *)
Theorem empty_salary_range_statistics :
  (forall (py_sum : list Q -> Q) (jobs : list job),
      Forall (fun j : job =>
                j !! "salary_range" = Some (PyString "") /\ j !! "salary" = None) jobs ->
      get_salary_insights py_sum jobs = Ok zero_statistics) /\
  (forall (j : job) (v : pyval) (salaries : list Q),
      truthy (py_get "salary_range" PyNone j) = false ->
      j !! "salary" = Some v ->
      collect_salary salaries j
        = append_positive salaries (analyze_salary_range (PyString (py_str v)))) /\
  (forall (j : job) (v : pyval) (salaries : list Q),
      j !! "salary_range" = Some v -> truthy v = true ->
      collect_salary salaries j = append_positive salaries (analyze_salary_range v)).
Proof.
  split; [| split].
  - intros py_sum jobs Hjobs. unfold get_salary_insights.
    rewrite collect_salaries_spec, collected_averages_nil; [reflexivity |].
    eapply Forall_impl; [exact Hjobs |].
    intros j [Hr Hs]. unfold listing_estimate. now rewrite Hr, Hs.
  - intros j v salaries Hfalse Hs.
    unfold collect_salary, collect_salary_try, py_item. rewrite Hfalse, Hs.
    now rewrite bool_decide_eq_true_2 by eauto.
  - intros j v salaries Hr Htrue.
    unfold collect_salary, collect_salary_try, py_item, py_get.
    rewrite Hr. cbn [from_option id]. now rewrite Htrue.
Qed.

Lemma empty_salary_range_statistics_witness :
  get_salary_insights PyNum.py_sum unpaid_jobs = Ok zero_statistics /\
  collect_salary [] {[ "salary_range" := PyString ""; "salary" := PyInt 64000 ]}
    = append_positive [] (analyze_salary_range (PyString (py_str (PyInt 64000)))) /\
  collect_salary [] {[ "salary_range" := PyString "70k"; "salary" := PyInt 64000 ]}
    = append_positive [] (analyze_salary_range (PyString "70k")).
Proof.
  split; [| split].
  - apply (proj1 empty_salary_range_statistics PyNum.py_sum unpaid_jobs).
    repeat constructor.
  - apply (proj1 (proj2 empty_salary_range_statistics) _ (PyInt 64000)).
    + vm_compute. reflexivity.
    + vm_compute. reflexivity.
  - apply (proj2 (proj2 empty_salary_range_statistics) _ (PyString "70k")).
    + vm_compute. reflexivity.
    + reflexivity.
Defined.

(** C6. In [detect_work_type] the score of a category is the sum of what
    its keywords add, and a category whose score is not positive never wins:
    when no category has a positive score the result is [Unknown]; otherwise
    the result is a category with a positive score that no other category
    exceeds, and among the categories that reach this maximum it is the first
    in the order Remote, Hybrid, On-site. *)
Theorem work_type_decision (description : string) :
  let score := matches_item (score_matches (PyStr.lower description)) in
  let result := detect_work_type description in
  (forall w, w ∈ categories ->
     score w = Zsum (map (keyword_delta (PyStr.lower description)) (keywords_of w))) /\
  ((forall w, w ∈ categories -> score w <= 0) -> result = Unknown) /\
  (forall w, w ∈ categories -> 0 < score w ->
     result ∈ categories /\ 0 < score result /\
     forall w', w' ∈ categories ->
       score w' <= score result /\
       (score w' = score result -> (priority_rank result <= priority_rank w')%nat)).
Proof.
  intros score result. subst score result.
  split; [intros w Hw; now apply category_score |].
  unfold detect_work_type.
  destruct description as [| ch rest].
  - split; [reflexivity |]. intros w _ Hw. exfalso.
    destruct w; vm_compute in Hw; discriminate.
  - cbn [PyNum.nonempty].
    destruct (score_matches_shape (PyStr.lower (String ch rest))) as (a & b & c & ->).
    pose proof (decide_three a b c) as Hd. cbv zeta in Hd.
    assert (Hon : matches_item [(OnSite, a); (Remote, b); (Hybrid, c)] OnSite = a)
      by reflexivity.
    assert (Hre : matches_item [(OnSite, a); (Remote, b); (Hybrid, c)] Remote = b)
      by reflexivity.
    assert (Hhy : matches_item [(OnSite, a); (Remote, b); (Hybrid, c)] Hybrid = c)
      by reflexivity.
    split.
    + intros Hall.
      assert (a <= 0) by (rewrite <- Hon; apply Hall, categories_spec; discriminate).
      assert (b <= 0) by (rewrite <- Hre; apply Hall, categories_spec; discriminate).
      assert (c <= 0) by (rewrite <- Hhy; apply Hall, categories_spec; discriminate).
      destruct Hd as [(_ & _ & _ & ->) | [(-> & ?) | [(-> & ?) | (-> & ?)]]];
        [reflexivity | lia ..].
    + intros w Hw Hpos. apply categories_spec in Hw.
      assert (Hsome : 0 < a \/ 0 < b \/ 0 < c) by (destruct w; [lia | lia | lia | congruence]).
      destruct Hd as [(? & ? & ? & _) | [(-> & ?) | [(-> & ?) | (-> & ?)]]]; [lia | ..].
      all: split; [apply categories_spec; discriminate |].
      all: split; [lia |].
      all: intros w' Hw'; apply categories_spec in Hw'.
      all: destruct w'; try congruence; rewrite ?Hon, ?Hre, ?Hhy; split; try lia.
      all: intros Heq; cbn; lia.
Qed.

Lemma work_type_decision_witness :
  let description := "Hybrid or remote, onsite on Fridays" in
  let score := matches_item (score_matches (PyStr.lower description)) in
  let result := detect_work_type description in
  result ∈ categories /\ 0 < score result /\
  forall w', w' ∈ categories ->
    score w' <= score result /\
    (score w' = score result -> (priority_rank result <= priority_rank w')%nat).
Proof.
  apply (proj2 (proj2 (work_type_decision "Hybrid or remote, onsite on Fridays")) OnSite).
  - apply categories_spec. discriminate.
  - vm_compute. reflexivity.
Defined.

(** C7. [analyze_salary_range] returns an estimate for every argument and
    never raises: for the empty text and for [None] the block returns the zero
    estimate at once, for any argument that is no text as well, and whatever
    exception the block raises is turned into the zero estimate (on the
    modelled texts the block raises none at all). *)
Theorem salary_parser_never_raises :
  (analyze_salary_range_try (PyString "") = Ok (Some zero_estimate) /\
   analyze_salary_range (PyString "") = zero_estimate) /\
  (analyze_salary_range_try PyNone = Ok (Some zero_estimate) /\
   analyze_salary_range PyNone = zero_estimate) /\
  (forall z : Z, analyze_salary_range (PyInt z) = zero_estimate) /\
  (forall (truth : bool) (text : string),
      analyze_salary_range (PyOther truth text) = zero_estimate) /\
  (forall salary_text : pyval,
      analyze_salary_range salary_text
        = except_zero_estimate (analyze_salary_range_try salary_text)) /\
  (forall e : exn, except_zero_estimate (Raise e) = zero_estimate) /\
  (forall salary_text : pyval, exists r, analyze_salary_range_try salary_text = Ok r).
Proof.
  repeat split. apply analyze_salary_range_try_total.
Qed.

(** C8. Every estimate [analyze_salary_range] returns has
    min <= average <= max, and it is either the zero estimate or has all
    three fields positive: it is never partially populated. *)
Theorem estimate_invariant (salary_text : pyval) :
  let r := analyze_salary_range salary_text in
  (min_salary r <= average_salary r <= max_salary r)%Q /\
  (r = zero_estimate \/
   (0 < min_salary r /\ 0 < average_salary r /\ 0 < max_salary r)%Q).
Proof.
  intros r. destruct (estimate_order salary_text) as [Hz | (H1 & H2 & H3 & H4 & H5)];
    fold r in Hz || fold r in H1, H2, H3, H4, H5.
  - rewrite Hz. cbn. split; [lra | now left].
  - split; [lra |]. right. repeat split; lra.
Qed.

(** C9. With any tokenizer, [extract_skills] returns the set (so without
    duplicates or order) of exactly those entries of the skill vocabulary
    that are a token of the lower-cased text or two adjacent tokens joined by
    a space; every returned name is in lower case.  When the tokenizer cuts
    the sample sentence at its spaces, the skills of
    ["I use Python and Machine Learning daily"] are [python] and
    [machine learning]. *)
Theorem extract_skills_vocabulary (nlp : string -> list string) :
  (forall text s : string,
      s ∈ extract_skills nlp text <->
      s ∈ common_skills /\
      exists j, let doc := nlp (PyStr.lower text) in
        doc !! j = Some s \/
        exists a b, doc !! j = Some a /\ doc !! S j = Some b /\ s = a ++ " " ++ b) /\
  (forall text s : string, s ∈ extract_skills nlp text -> PyStr.lower s = s) /\
  (nlp "i use python and machine learning daily"
     = ["i"; "use"; "python"; "and"; "machine"; "learning"; "daily"] ->
   extract_skills nlp "I use Python and Machine Learning daily"
     = {[ "python"; "machine learning" ]}).
Proof.
  split; [| split].
  - intros text s. apply extract_skills_spec.
  - intros text s Hs. apply extract_skills_spec in Hs as [Hc _].
    now apply common_skills_lower.
  - intros Hdoc. unfold extract_skills.
    change (PyStr.lower "I use Python and Machine Learning daily")
      with "i use python and machine learning daily".
    rewrite Hdoc. vm_compute. reflexivity.
Qed.

Lemma extract_skills_vocabulary_witness :
  extract_skills whitespace_tokens "I use Python and Machine Learning daily"
    = {[ "python"; "machine learning" ]}.
Proof.
  apply (proj2 (proj2 (extract_skills_vocabulary whitespace_tokens))).
  vm_compute. reflexivity.
Defined.

(** C10. [get_skill_trends] returns a skill-frequency dict whenever the
    description of every listing is a text or is missing.  In the dict it
    returns, the count of a skill is the number of listings whose description
    yields the skill: a listing counts once however often its description
    mentions the skill, and no count exceeds the number of listings. *)
Theorem skill_counted_once_per_listing (nlp : string -> list string) (jobs : list job) :
  (Forall (fun j : job => exists text,
             py_get "description" (PyString "") j = PyString text) jobs ->
   exists trends, get_skill_trends nlp jobs = Ok trends) /\
  (forall (trends : gmap string nat) (skill : string),
      get_skill_trends nlp jobs = Ok trends ->
      skill_count trends skill = length (List.filter (job_mentions nlp skill) jobs) /\
      (skill_count trends skill <= length jobs)%nat).
Proof.
  split; [apply get_skill_trends_total |].
  intros trends skill. unfold get_skill_trends.
  destruct (collect_skills nlp jobs []) as [all_skills | e] eqn:Hc;
    unfold mbind, result_bind; [| discriminate].
  intros [= <-]. rewrite Counter_count, (collect_skills_count nlp _ _ _ skill Hc).
  cbn [count_occ]. split; [lia |].
  pose proof (filter_length_le (job_mentions nlp skill) jobs). lia.
Qed.

Lemma skill_counted_once_per_listing_witness :
  (exists trends, get_skill_trends whitespace_tokens example_jobs = Ok trends) /\
  skill_count example_trends "python"
    = length (List.filter (job_mentions whitespace_tokens "python") example_jobs) /\
  (skill_count example_trends "python" <= length example_jobs)%nat.
Proof.
  split.
  - apply (proj1 (skill_counted_once_per_listing whitespace_tokens example_jobs)).
    repeat constructor; eexists; vm_compute; reflexivity.
  - apply (proj2 (skill_counted_once_per_listing whitespace_tokens example_jobs)
             example_trends "python").
    vm_compute. reflexivity.
Defined.

(** * Further properties *)

(** ** Frequency dicts *)

Lemma total_count_bump (counts : gmap string nat) (x : string) :
  total_count (<[x := S (default O (counts !! x))]> counts) = S (total_count counts).
Proof.
  unfold total_count.
  assert (Hcomm : forall (m : gmap string nat) (j1 j2 : string) (z1 z2 y : nat),
             j1 <> j2 -> m !! j1 = Some z1 -> m !! j2 = Some z2 ->
             (z1 + (z2 + y) = z2 + (z1 + y))%nat) by (intros; lia).
  destruct (counts !! x) as [n |] eqn:Hx; cbn [from_option id].
  - rewrite <- insert_delete_eq.
    rewrite map_fold_insert_L; [| now apply Hcomm | apply lookup_delete_eq].
    rewrite (map_fold_delete_L _ _ x n counts); [lia | now apply Hcomm | exact Hx].
  - rewrite map_fold_insert_L; [lia | now apply Hcomm | exact Hx].
Qed.

Lemma total_count_Counter (l : list string) : total_count (Counter l) = length l.
Proof.
  unfold Counter.
  assert (Hgen : forall counts : gmap string nat,
    total_count (fold_left (fun counts x => <[x := S (default O (counts !! x))]> counts)
                           l counts)
    = (total_count counts + length l)%nat).
  { induction l as [| x l IH]; intros counts; cbn [fold_left length]; [lia |].
    rewrite IH, total_count_bump. lia. }
  rewrite Hgen. unfold total_count. now rewrite map_fold_empty.
Qed.

Lemma Counter_lookup (l : list string) (x : string) :
  Counter l !! x = if bool_decide (x ∈ l) then Some (count_occ string_dec l x) else None.
Proof.
  unfold Counter.
  assert (Hgen : forall counts : gmap string nat,
    fold_left (fun counts x => <[x := S (default O (counts !! x))]> counts) l counts !! x
    = if bool_decide (x ∈ l)
      then Some (default O (counts !! x) + count_occ string_dec l x)%nat
      else counts !! x).
  { induction l as [| y l IH]; intros counts; cbn [fold_left count_occ].
    - rewrite bool_decide_eq_false_2 by apply not_elem_of_nil. reflexivity.
    - rewrite IH. destruct (string_dec y x) as [-> | Hne].
      + rewrite lookup_insert_eq. cbn [from_option id].
        rewrite (bool_decide_eq_true_2 (x ∈ x :: l)) by apply list_elem_of_here.
        case_bool_decide as Hx; [f_equal; lia |].
        assert (count_occ string_dec l x = O)
          by (apply count_occ_not_In; now rewrite <- list_elem_of_In).
        f_equal. lia.
      + rewrite lookup_insert_ne by exact Hne.
        assert (Hiff : x ∈ y :: l <-> x ∈ l).
        { rewrite elem_of_cons. split; [intros [-> | H]; [congruence | exact H] | auto]. }
        repeat case_bool_decide; tauto || reflexivity. }
  rewrite Hgen, lookup_empty. now case_bool_decide.
Qed.

(** ** Classified listings *)

Lemma job_work_type_cases (j : job) :
  (unusable_description j /\ job_work_type j = Raise AttributeError) \/
  (~ unusable_description j /\ exists n, n ∈ work_type_names /\ job_work_type j = Ok n).
Proof.
  unfold job_work_type, detect_work_type_of, unusable_description, truthy_non_text.
  assert (Hname : forall w, work_type_name w ∈ work_type_names).
  { intros w. unfold work_type_names. rewrite !elem_of_cons. destruct w; cbn; tauto. }
  destruct (py_get "description" (PyString "") j) as [| z | text | truth other];
    cbn [truthy andb].
  - right. split; [discriminate |]. unfold mbind, result_bind. eauto.
  - destruct (negb (z =? 0)); cbn [andb].
    + left. split; reflexivity.
    + right. split; [discriminate |]. unfold mbind, result_bind. eauto.
  - right. split; [rewrite andb_false_r; discriminate |]. unfold mbind, result_bind. eauto.
  - destruct truth; cbn [andb].
    + left. split; reflexivity.
    + right. split; [discriminate |]. unfold mbind, result_bind. eauto.
Qed.


Lemma filter_by_work_type_fixed (w : string) (r : list job) :
  Forall (fun j => job_work_type j = Ok w) r -> filter_by_work_type w r = Ok r.
Proof.
  induction 1 as [| j r Hj _ IH]; cbn [filter_by_work_type]; [reflexivity |].
  rewrite Hj, IH. unfold mbind, result_bind. now rewrite String.eqb_refl.
Qed.

Lemma filter_by_work_type_spec (w : string) (jobs r : list job) :
  filter_by_work_type w jobs = Ok r ->
  sublist r jobs /\ Forall (fun j => job_work_type j = Ok w) r.
Proof.
  revert r. induction jobs as [| j jobs IH]; intros r; cbn [filter_by_work_type].
  - intros [= <-]. split; constructor.
  - destruct (job_work_type j) as [n | e] eqn:Hj; unfold mbind, result_bind; [| discriminate].
    destruct (filter_by_work_type w jobs) as [rest | e]; [| discriminate].
    destruct (IH rest eq_refl) as [Hsub Hall].
    destruct (String.eqb_spec n w) as [-> | Hne]; intros [= <-].
    + split; [now apply sublist_skip | now constructor].
    + split; [now apply sublist_cons | exact Hall].
Qed.

Lemma filter_by_work_type_count (w : string) (jobs : list job) (names : list string) :
  comprehension job_work_type jobs = Ok names ->
  exists r, filter_by_work_type w jobs = Ok r /\ length r = count_occ string_dec names w.
Proof.
  revert names. induction jobs as [| j jobs IH]; intros names;
    cbn [comprehension filter_by_work_type].
  - intros [= <-]. eauto.
  - destruct (job_work_type j) as [n | e]; unfold mbind, result_bind; [| discriminate].
    destruct (comprehension job_work_type jobs) as [ns | e]; [| discriminate].
    intros [= <-]. destruct (IH ns eq_refl) as (rest & -> & Hlen).
    eexists. split; [reflexivity |]. cbn [count_occ].
    destruct (String.eqb_spec n w) as [-> | Hne], (string_dec _ w); cbn [length];
      congruence || lia.
Qed.

Lemma comprehension_names (jobs : list job) (names : list string) :
  comprehension job_work_type jobs = Ok names ->
  length names = length jobs /\ Forall (fun n => n ∈ work_type_names) names.
Proof.
  revert names. induction jobs as [| j jobs IH]; intros names; cbn [comprehension].
  - intros [= <-]. split; [reflexivity | constructor].
  - destruct (job_work_type_cases j) as [[_ ->] | [_ (n & Hn & ->)]];
      unfold mbind, result_bind; [discriminate |].
    destruct (comprehension job_work_type jobs) as [ns | e]; [| discriminate].
    intros [= <-]. destruct (IH ns eq_refl) as [Hlen Hall].
    split; [cbn; lia | now constructor].
Qed.

(** X1. The listings [filter_jobs_by_work_type] returns are listings of the
    input, in their order; filtering them again by the same type changes
    nothing; and for a type other than ['All'] each of them is classified as
    that type. *)
Theorem filter_jobs_idempotent (jobs r : list job) (work_type : string) :
  filter_jobs_by_work_type jobs work_type = Ok r ->
  sublist r jobs /\
  filter_jobs_by_work_type r work_type = Ok r /\
  (work_type <> "All" -> Forall (fun j => job_work_type j = Ok work_type) r).
Proof.
  unfold filter_jobs_by_work_type.
  destruct (String.eqb_spec work_type "All") as [-> | Hne].
  - intros [= <-]. split; [reflexivity | split; [reflexivity | congruence]].
  - intros Hr. destruct (filter_by_work_type_spec _ _ _ Hr) as [Hsub Hall].
    split; [exact Hsub |]. split; [now apply filter_by_work_type_fixed | auto].
Qed.

Lemma filter_jobs_idempotent_witness :
  sublist remote_jobs office_jobs /\
  filter_jobs_by_work_type remote_jobs "Remote" = Ok remote_jobs /\
  ("Remote" <> "All" -> Forall (fun j => job_work_type j = Ok "Remote") remote_jobs).
Proof.
  apply (filter_jobs_idempotent office_jobs remote_jobs "Remote").
  vm_compute. reflexivity.
Defined.



(** X3. The counts of [get_work_type_distribution] add up to the number of
    listings, and its keys are among the four work-type names. *)
Theorem work_type_distribution_total (jobs : list job) (distribution : gmap string nat) :
  get_work_type_distribution jobs = Ok distribution ->
  total_count distribution = length jobs /\
  (forall name, is_Some (distribution !! name) -> name ∈ work_type_names).
Proof.
  unfold get_work_type_distribution.
  destruct (comprehension job_work_type jobs) as [names | e] eqn:Hn;
    unfold mbind, result_bind; [| discriminate].
  intros [= <-]. destruct (comprehension_names _ _ Hn) as [Hlen Hall].
  split; [now rewrite total_count_Counter |].
  intros name. rewrite Counter_lookup. case_bool_decide as Hin; [| intros [? [=]]].
  intros _. rewrite Forall_forall in Hall. now apply Hall.
Qed.

Lemma work_type_distribution_total_witness :
  total_count office_distribution = length office_jobs /\
  (forall name, is_Some (office_distribution !! name) -> name ∈ work_type_names).
Proof.
  apply (work_type_distribution_total office_jobs office_distribution).
  vm_compute. reflexivity.
Defined.

(** X4. The count [get_work_type_distribution] gives a work-type name is the
    number of listings [filter_jobs_by_work_type] returns for that name. *)
Theorem work_type_distribution_filter (jobs : list job) (distribution : gmap string nat)
    (work_type : string) :
  get_work_type_distribution jobs = Ok distribution ->
  work_type <> "All" ->
  exists r, filter_jobs_by_work_type jobs work_type = Ok r /\
            length r = skill_count distribution work_type.
Proof.
  unfold get_work_type_distribution, filter_jobs_by_work_type.
  destruct (comprehension job_work_type jobs) as [names | e] eqn:Hn;
    unfold mbind, result_bind; [| discriminate].
  intros [= <-] Hne. rewrite (proj2 (String.eqb_neq _ _) Hne), Counter_count.
  now apply filter_by_work_type_count.
Qed.

Lemma work_type_distribution_filter_witness :
  exists r, filter_jobs_by_work_type office_jobs "Remote" = Ok r /\
            length r = skill_count office_distribution "Remote".
Proof.
  apply (work_type_distribution_filter office_jobs office_distribution "Remote").
  - vm_compute. reflexivity.
  - discriminate.
Defined.

(** ** Characters of a text *)

Lemma contains_char (c : ascii) (s : string) :
  PyStr.contains (String c "") s = char_in c s.
Proof.
  induction s as [| c' s IH]; [reflexivity |].
  cbn [PyStr.contains PyStr.startswith char_in]. rewrite IH, Ascii.eqb_sym.
  now destruct (Ascii.eqb c' c).
Qed.

Lemma char_in_app (c : ascii) (s t : string) :
  char_in c (s ++ t) = char_in c s || char_in c t.
Proof.
  induction s as [| c' s IH]; [reflexivity |].
  rewrite append_cons. cbn [char_in]. rewrite IH. now rewrite orb_assoc.
Qed.

Lemma char_in_lstrip (c : ascii) (s : string) :
  char_in c s = false -> char_in c (PyStr.lstrip s) = false.
Proof.
  induction s as [| c' s IH]; [reflexivity |]. cbn [PyStr.lstrip].
  destruct (PyStr.is_space c'); [| auto].
  cbn [char_in]. rewrite orb_false_iff. intros [_ H]. now apply IH.
Qed.

Lemma char_in_rstrip (c : ascii) (s : string) :
  char_in c s = false -> char_in c (PyStr.rstrip s) = false.
Proof.
  induction s as [| c' s IH]; [reflexivity |]. cbn [PyStr.rstrip char_in].
  rewrite orb_false_iff. intros [Hc Hs]. specialize (IH Hs).
  destruct (PyStr.rstrip s) as [| c'' r].
  - destruct (PyStr.is_space c'); cbn [char_in]; [reflexivity | now rewrite Hc].
  - cbn [char_in] in *. now rewrite Hc, IH.
Qed.

(** ** [strip] *)

Lemma rstrip_idempotent (s : string) : PyStr.rstrip (PyStr.rstrip s) = PyStr.rstrip s.
Proof.
  induction s as [| c s IH]; [reflexivity |]. cbn [PyStr.rstrip].
  destruct (PyStr.rstrip s) as [| c' r] eqn:Hr.
  - destruct (PyStr.is_space c) eqn:Hc; [reflexivity |].
    cbn [PyStr.rstrip]. now rewrite Hc.
  - cbn [PyStr.rstrip] in *. now rewrite IH.
Qed.

Lemma lstrip_rstrip_lstrip (s : string) :
  PyStr.lstrip (PyStr.rstrip (PyStr.lstrip s)) = PyStr.rstrip (PyStr.lstrip s).
Proof.
  induction s as [| c s IH]; [reflexivity |]. cbn [PyStr.lstrip].
  destruct (PyStr.is_space c) eqn:Hc; [exact IH |].
  cbn [PyStr.rstrip]. destruct (PyStr.rstrip s) as [| c' r].
  - rewrite Hc. cbn [PyStr.lstrip]. now rewrite Hc.
  - cbn [PyStr.lstrip]. now rewrite Hc.
Qed.

Lemma strip_idempotent (s : string) : PyStr.strip (PyStr.strip s) = PyStr.strip s.
Proof. unfold PyStr.strip. now rewrite lstrip_rstrip_lstrip, rstrip_idempotent. Qed.

(** ** [split] *)

Lemma py_split_first (sep : ascii) (s : string) :
  exists first rest, py_split sep s = first :: rest /\ char_in sep first = false.
Proof.
  induction s as [| c s (first & rest & IH & Hfirst)]; cbn [py_split]; [eauto |].
  destruct (Ascii.eqb c sep) eqn:Hc; [eauto |].
  rewrite IH. eexists _, _. split; [reflexivity |]. cbn [char_in]. now rewrite Hc.
Qed.

(** ** The locations collected *)

Lemma collect_locations_cases (j : job) :
  (has_location j = false /\ ~ unusable_location j) \/
  (has_location j = true /\ unusable_location j /\
   str_receiver (py_get "location" (PyString "") j) = Raise AttributeError) \/
  (has_location j = true /\ ~ unusable_location j /\
   exists text, py_get "location" (PyString "") j = PyString text).
Proof.
  unfold has_location, unusable_location, truthy_non_text, py_get.
  destruct (j !! "location") as [[| z | text | truth other] |];
    cbn [from_option id truthy str_receiver andb].
  - left. split; [reflexivity | discriminate].
  - destruct (negb (z =? 0)); cbn [andb]; [right; left; auto |].
    left. split; [reflexivity | discriminate].
  - rewrite andb_false_r. destruct (PyNum.nonempty text).
    + right. right. split; [reflexivity |]. split; [discriminate | eauto].
    + left. split; [reflexivity | discriminate].
  - destruct truth; cbn [andb]; [right; left; auto |].
    left. split; [reflexivity | discriminate].
  - left. split; [reflexivity | discriminate].
Qed.

Lemma collect_locations_spec (jobs : list job) :
  match collect_locations jobs with
  | Ok locations =>
      ~ Exists unusable_location jobs /\
      length locations = length (List.filter has_location jobs) /\
      Forall (fun k => PyStr.strip k = k /\ char_in ","%char k = false) locations
  | Raise e => e = AttributeError /\ Exists unusable_location jobs
  end.
Proof.
  induction jobs as [| j jobs IH]; cbn [collect_locations List.filter].
  - split; [intros H; inversion H | split; [reflexivity | constructor]].
  - fold (has_location j).
    destruct (collect_locations_cases j)
      as [[Hno Hok] | [(Hyes & Hbad & Hraise) | (Hyes & Hok & text & Htext)]].
    + rewrite Hno. destruct (collect_locations jobs) as [locations | e].
      * destruct IH as (Hex & Hlen & Hall). split; [| auto].
        rewrite Exists_cons. tauto.
      * destruct IH as [He Hex]. split; [exact He | now apply Exists_cons_tl].
    + rewrite Hyes, Hraise. unfold mbind, result_bind.
      split; [reflexivity | now apply Exists_cons_hd].
    + rewrite Hyes, Htext. cbn [str_receiver]. unfold mbind at 1, result_bind at 1.
      destruct (py_split_first ","%char text) as (first & rest & -> & Hfirst).
      cbn [list_item lookup list_lookup]. unfold mbind at 1, result_bind at 1.
      destruct (collect_locations jobs) as [locations | e]; unfold mbind, result_bind.
      * destruct IH as (Hex & Hlen & Hall).
        split; [rewrite Exists_cons; tauto |]. split; [cbn [length]; lia |].
        constructor; [| exact Hall]. split; [apply strip_idempotent |].
        now apply char_in_rstrip, char_in_lstrip.
      * destruct IH as [He Hex]. split; [exact He | now apply Exists_cons_tl].
Qed.

(** X5. Every key of the dict [get_location_trends] returns is stripped of
    surrounding white space and holds no comma. *)
Theorem location_trends_keys (jobs : list job) (trends : gmap string nat) (key : string) :
  get_location_trends jobs = Ok trends ->
  is_Some (trends !! key) ->
  PyStr.strip key = key /\ PyStr.contains "," key = false.
Proof.
  unfold get_location_trends. pose proof (collect_locations_spec jobs) as Hspec.
  destruct (collect_locations jobs) as [locations | e];
    unfold mbind, result_bind; [| discriminate].
  destruct Hspec as (_ & _ & Hall). intros [= <-].
  rewrite Counter_lookup. case_bool_decide as Hin; [| intros [? [=]]].
  intros _. rewrite Forall_forall in Hall. destruct (Hall _ Hin) as [Hstrip Hcomma].
  split; [exact Hstrip | now rewrite contains_char].
Qed.

Lemma location_trends_keys_witness :
  PyStr.strip "Paris" = "Paris" /\ PyStr.contains "," "Paris" = false.
Proof.
  apply (location_trends_keys office_jobs office_locations "Paris").
  - vm_compute. reflexivity.
  - exists 1%nat. vm_compute. reflexivity.
Defined.


(** ** Letter case *)

Lemma lower_char_idempotent (c : ascii) :
  PyStr.lower_char (PyStr.lower_char c) = PyStr.lower_char c.
Proof. destruct c as [[] [] [] [] [] [] [] []]; vm_compute; reflexivity. Qed.

Lemma lower_nonempty (s : string) : PyNum.nonempty (PyStr.lower s) = PyNum.nonempty s.
Proof. now destruct s. Qed.

(** ** Occurrences *)

Lemma startswith_app (p k s : string) :
  PyStr.startswith (p ++ k) s = true -> PyStr.contains k s = true.
Proof.
  revert s. induction p as [| a p IH]; intros s.
  - rewrite append_nil_l. intros H. destruct s; cbn [PyStr.contains]; now rewrite H.
  - rewrite append_cons. destruct s as [| b s]; cbn [PyStr.startswith]; [discriminate |].
    destruct (Ascii.eqb a b); [| discriminate].
    intros H. cbn [PyStr.contains]. rewrite (IH s H). apply orb_true_r.
Qed.

Lemma contains_app (p k s : string) :
  PyStr.contains (p ++ k) s = true -> PyStr.contains k s = true.
Proof.
  induction s as [| c s IH]; cbn [PyStr.contains].
  - rewrite orb_false_r. apply startswith_app.
  - rewrite orb_true_iff. intros [H | H].
    + apply (startswith_app p k (String c s)) in H. exact H.
    + rewrite (IH H). apply orb_true_r.
Qed.

(** ** Scores *)

Lemma keyword_delta_cases (d keyword : string) :
  (PyStr.contains keyword d = false /\ keyword_delta d keyword = 0) \/
  (PyStr.contains keyword d = true /\ 0 <= keyword_delta d keyword /\
   (existsb (fun context => PyStr.contains context d) context_markers = true ->
    1 <= keyword_delta d keyword)).
Proof.
  unfold keyword_delta.
  destruct (PyStr.contains keyword d) eqn:Hk.
  - right. split; [reflexivity |].
    destruct (existsb _ context_markers), (_ || _); split; try lia; intros; lia.
  - left. split; [reflexivity |].
    assert (Hnot : PyStr.contains ("not " ++ keyword) d = false).
    { destruct (PyStr.contains ("not " ++ keyword) d) eqn:E; [| reflexivity].
      apply contains_app in E. congruence. }
    assert (Hno : PyStr.contains ("no " ++ keyword) d = false).
    { destruct (PyStr.contains ("no " ++ keyword) d) eqn:E; [| reflexivity].
      apply contains_app in E. congruence. }
    now rewrite Hnot, Hno.
Qed.

Lemma Zsum_nonneg (l : list Z) : Forall (fun z => 0 <= z) l -> 0 <= Zsum l.
Proof. induction 1; cbn [Zsum fold_right]; [lia |]. fold (Zsum l). lia. Qed.

Lemma Zsum_zero (l : list Z) : Forall (fun z => z = 0) l -> Zsum l = 0.
Proof. induction 1; cbn [Zsum fold_right]; [lia |]. fold (Zsum l). lia. Qed.

Lemma Zsum_positive (l : list Z) (z : Z) :
  Forall (fun z => 0 <= z) l -> z ∈ l -> 1 <= z -> 1 <= Zsum l.
Proof.
  induction 1 as [| y l Hy Hl IH]; [intros H; now apply elem_of_nil in H |].
  rewrite elem_of_cons. cbn [Zsum fold_right]. fold (Zsum l).
  pose proof (Zsum_nonneg l Hl). intros [<- | Hin] Hz; [lia |].
  specialize (IH Hin Hz). lia.
Qed.

Lemma deltas_nonneg (d : string) (keywords : list string) :
  Forall (fun z => 0 <= z) (map (keyword_delta d) keywords).
Proof.
  apply Forall_forall. intros z Hz. apply list_elem_of_In, in_map_iff in Hz as (kw & <- & _).
  destruct (keyword_delta_cases d kw) as [[_ ->] | (_ & H & _)]; lia.
Qed.

Lemma score_nonneg (d : string) (w : WorkType) :
  w ∈ categories -> 0 <= matches_item (score_matches d) w.
Proof. intros Hw. rewrite (category_score d w Hw). apply Zsum_nonneg, deltas_nonneg. Qed.

(** The result is [Unknown] exactly when no score is positive. *)
Lemma detect_unknown_iff (description : string) :
  detect_work_type description = Unknown <->
  forall w, w ∈ categories -> matches_item (score_matches (PyStr.lower description)) w <= 0.
Proof.
  unfold detect_work_type. destruct description as [| ch rest].
  - split; [| reflexivity]. intros _ w _. destruct w; vm_compute; discriminate.
  - cbn [PyNum.nonempty].
    destruct (score_matches_shape (PyStr.lower (String ch rest))) as (a & b & c & ->).
    pose proof (decide_three a b c) as Hd. cbv zeta in Hd.
    assert (Hon : matches_item [(OnSite, a); (Remote, b); (Hybrid, c)] OnSite = a)
      by reflexivity.
    assert (Hre : matches_item [(OnSite, a); (Remote, b); (Hybrid, c)] Remote = b)
      by reflexivity.
    assert (Hhy : matches_item [(OnSite, a); (Remote, b); (Hybrid, c)] Hybrid = c)
      by reflexivity.
    split.
    + intros Hu w Hw. apply categories_spec in Hw.
      destruct Hd as [(? & ? & ? & _) | [(H & ?) | [(H & ?) | (H & ?)]]];
        try (rewrite Hu in H; discriminate).
      destruct w; try congruence; rewrite ?Hon, ?Hre, ?Hhy; lia.
    + intros Hall.
      assert (a <= 0) by (rewrite <- Hon; apply Hall, categories_spec; discriminate).
      assert (b <= 0) by (rewrite <- Hre; apply Hall, categories_spec; discriminate).
      assert (c <= 0) by (rewrite <- Hhy; apply Hall, categories_spec; discriminate).
      destruct Hd as [(_ & _ & _ & ->) | [(-> & ?) | [(-> & ?) | (-> & ?)]]];
        [reflexivity | lia ..].
Qed.

(** X7. [detect_work_type] does not depend on letter case: descriptions that
    are equal once put in lower case are classified alike. *)
Theorem detect_work_type_case_insensitive (d1 d2 : string) :
  PyStr.lower d1 = PyStr.lower d2 -> detect_work_type d1 = detect_work_type d2.
Proof.
  intros H. unfold detect_work_type.
  rewrite <- (lower_nonempty d1), <- (lower_nonempty d2), H. reflexivity.
Qed.

Lemma detect_work_type_case_insensitive_witness :
  detect_work_type "Fully REMOTE Position" = detect_work_type "fully remote position".
Proof.
  apply (detect_work_type_case_insensitive "Fully REMOTE Position" "fully remote position").
  vm_compute. reflexivity.
Defined.

(** X8. In [detect_work_type] no score is ever negative, since a negation can
    only occur where its keyword occurs; so the result is [Unknown] exactly
    when every score is 0. *)
Theorem work_type_scores_nonnegative (description : string) :
  let score := matches_item (score_matches (PyStr.lower description)) in
  (forall w, w ∈ categories -> 0 <= score w) /\
  (detect_work_type description = Unknown <-> forall w, w ∈ categories -> score w = 0).
Proof.
  intros score. subst score. split; [intros w Hw; now apply score_nonneg |].
  rewrite detect_unknown_iff. split; intros H w Hw.
  - pose proof (score_nonneg (PyStr.lower description) w Hw). specialize (H w Hw). lia.
  - rewrite (H w Hw). lia.
Qed.

(** X9. A description in which no keyword of any category occurs is
    [Unknown]. *)
Theorem no_keyword_unknown (description : string) :
  (forall w keyword, w ∈ categories -> keyword ∈ keywords_of w ->
     PyStr.contains keyword (PyStr.lower description) = false) ->
  detect_work_type description = Unknown.
Proof.
  intros Hnone. apply detect_unknown_iff. intros w Hw.
  rewrite (category_score _ w Hw), Zsum_zero; [lia |].
  apply Forall_forall. intros z Hz.
  apply list_elem_of_In, in_map_iff in Hz as (kw & <- & Hkw). apply list_elem_of_In in Hkw.
  destruct (keyword_delta_cases (PyStr.lower description) kw) as [[_ ->] | (Hc & _)];
    [reflexivity |].
  rewrite (Hnone w kw Hw Hkw) in Hc. discriminate.
Qed.

Lemma no_keyword_unknown_witness :
  detect_work_type "Great team, free lunch" = Unknown.
Proof.
  apply (no_keyword_unknown "Great team, free lunch").
  intros w keyword Hw Hk.
  destruct w; vm_compute in Hk;
    repeat (apply elem_of_cons in Hk as [-> | Hk]; [vm_compute; reflexivity |]);
    now apply elem_of_nil in Hk.
Defined.

(** X10. When the description holds one of the context markers, a keyword
    that occurs in it scores at least 1 for its category even if the keyword
    is negated, so the description is classified as one of the three
    categories and never as [Unknown]. *)
Theorem context_marker_classifies (description keyword : string) (w : WorkType) :
  w ∈ categories -> keyword ∈ keywords_of w ->
  PyStr.contains keyword (PyStr.lower description) = true ->
  existsb (fun context => PyStr.contains context (PyStr.lower description))
          context_markers = true ->
  1 <= matches_item (score_matches (PyStr.lower description)) w /\
  detect_work_type description ∈ categories.
Proof.
  intros Hw Hkw Hocc Hctx.
  assert (Hscore : 1 <= matches_item (score_matches (PyStr.lower description)) w).
  { rewrite (category_score _ w Hw).
    apply (Zsum_positive _ (keyword_delta (PyStr.lower description) keyword)).
    - apply deltas_nonneg.
    - apply list_elem_of_In, in_map, list_elem_of_In, Hkw.
    - destruct (keyword_delta_cases (PyStr.lower description) keyword)
        as [[Hc _] | (_ & _ & H)]; [congruence | auto]. }
  split; [exact Hscore |].
  apply categories_spec. intros Hu.
  pose proof (proj1 (detect_unknown_iff description) Hu w Hw). lia.
Qed.

Lemma context_marker_classifies_witness :
  1 <= matches_item (score_matches (PyStr.lower "Position type: not remote")) Remote /\
  detect_work_type "Position type: not remote" ∈ categories.
Proof.
  apply (context_marker_classifies "Position type: not remote" "remote" Remote).
  - apply categories_spec. discriminate.
  - unfold keywords_of. cbn. apply elem_of_cons. now left.
  - vm_compute. reflexivity.
  - vm_compute. reflexivity.
Defined.

(** ** Normalized records *)

Section NormalizeFacts.

Context {V : Type}.
Variables (empty_text empty_list now class_name : V).

Lemma normalize_dom (raw_job : gmap string V) :
  dom (normalize_job_data empty_text empty_list now class_name raw_job) = normalized_keys.
Proof.
  unfold normalize_job_data. rewrite dom_list_to_map_L. reflexivity.
Qed.

Lemma normalize_lookup (raw_job : gmap string V) (key : string) :
  normalize_job_data empty_text empty_list now class_name raw_job !! key =
  if bool_decide (key ∈ normalized_keys) then
    Some (default
            (if bool_decide (key = "skills") then empty_list
             else if bool_decide (key = "posted_date") then now
             else if bool_decide (key = "source") then class_name
             else empty_text)
            (raw_job !! key))
  else None.
Proof.
  unfold normalize_job_data. cbn [list_to_map foldr fst snd uncurry].
  repeat (rewrite lookup_insert; case_decide; [subst key; reflexivity |]).
  rewrite lookup_empty. rewrite bool_decide_eq_false_2; [reflexivity |].
  unfold normalized_keys. rewrite elem_of_list_to_set, !elem_of_cons, elem_of_nil.
  intuition congruence.
Qed.

(** X11. [_normalize_job_data] returns a record with exactly the nine
    canonical keys; a key the raw record has keeps its value, a missing one
    gets its default (the empty text, the empty list for [skills], the time
    of the call for [posted_date], the class name for [source]), and any
    other key of the raw record is dropped.  Normalizing a normalized record
    changes nothing, whatever the time of the second call. *)
Theorem normalize_job_data_canonical (raw_job : gmap string V) (later : V) :
  let normalized := normalize_job_data empty_text empty_list now class_name raw_job in
  dom normalized = normalized_keys /\
  (forall key value, raw_job !! key = Some value -> key ∈ normalized_keys ->
     normalized !! key = Some value) /\
  (forall key value,
     (key, value) ∈ [ ("title", empty_text); ("company", empty_text);
                      ("location", empty_text); ("description", empty_text);
                      ("salary_range", empty_text); ("skills", empty_list);
                      ("url", empty_text); ("posted_date", now);
                      ("source", class_name) ] ->
     raw_job !! key = None -> normalized !! key = Some value) /\
  (forall key, key ∉ normalized_keys -> normalized !! key = None) /\
  normalize_job_data empty_text empty_list later class_name normalized = normalized.
Proof.
  intros normalized. subst normalized.
  split; [apply normalize_dom |]. split; [| split; [| split]].
  - intros key value Hraw Hkey. rewrite normalize_lookup.
    rewrite bool_decide_eq_true_2 by exact Hkey. now rewrite Hraw.
  - intros key value Hin Hraw. rewrite !elem_of_cons, elem_of_nil in Hin.
    unfold normalize_job_data. cbn [list_to_map foldr fst snd uncurry].
    repeat (destruct Hin as [[= -> ->] | Hin];
            [repeat (rewrite lookup_insert_ne by discriminate);
             rewrite lookup_insert_eq, Hraw; reflexivity |]).
    contradiction.
  - intros key Hkey. rewrite normalize_lookup. now rewrite bool_decide_eq_false_2.
  - unfold normalize_job_data at 1. rewrite !normalize_lookup. reflexivity.
Qed.

End NormalizeFacts.

(** ** Normalized records in the salary rollup *)

(** X12. Salary statistics over normalized listings ignore any generic
    [salary] field of the raw records: they are the statistics of the raw
    records with that field removed. *)
Theorem normalized_salary_insights (py_sum : list Q -> Q)
    (empty_list now class_name : pyval) (raw_jobs : list job) :
  get_salary_insights py_sum
    (map (normalize_job_data (PyString "") empty_list now class_name) raw_jobs)
  = get_salary_insights py_sum (map (delete "salary") raw_jobs).
Proof.
  unfold get_salary_insights. rewrite !collect_salaries_spec. cbn [app].
  assert (Heq : collected_averages
                  (map (normalize_job_data (PyString "") empty_list now class_name) raw_jobs)
                = collected_averages (map (delete "salary") raw_jobs)).
  { unfold collected_averages.
    induction raw_jobs as [| raw raws IH]; cbn [map flat_map]; [reflexivity |].
    rewrite IH. f_equal. unfold listing_estimate.
    rewrite !normalize_lookup.
    replace (bool_decide ("salary_range" ∈ normalized_keys)) with true
      by (vm_compute; reflexivity).
    replace (bool_decide ("salary" ∈ normalized_keys)) with false
      by (vm_compute; reflexivity).
    rewrite lookup_delete_eq, lookup_delete_ne by discriminate.
    cbn [fmap option_fmap option_map].
    destruct (raw !! "salary_range") as [v |]; reflexivity. }
  now rewrite Heq.
Qed.

(** ** Search URLs *)

Lemma replace_space (new s : string) :
  char_in " " new = false -> char_in " " (PyStr.replace " " new s) = false.
Proof.
  intros Hnew. unfold PyStr.replace. induction s as [| c s IH]; [reflexivity |].
  cbn [PyStr.replace_from PyStr.startswith String.length Nat.sub].
  destruct (Ascii.eqb " " c) eqn:Hc.
  - rewrite char_in_app, Hnew. exact IH.
  - cbn [char_in]. rewrite Ascii.eqb_sym, Hc. exact IH.
Qed.

Lemma pretty_N_char_space (x : N) : Ascii.eqb (pretty_N_char x) " " = false.
Proof. unfold pretty_N_char. repeat case_match; reflexivity. Qed.

Lemma pretty_N_go_space (x : N) (s : string) :
  char_in " " s = false -> char_in " " (pretty_N_go x s) = false.
Proof.
  revert s. induction (N.lt_wf_0 x) as [x _ IH]; intros s Hs.
  destruct (decide (x = 0)%N) as [-> | Hx]; [now rewrite pretty_N_go_0 |].
  rewrite pretty_N_go_step by lia. apply IH.
  - apply N.div_lt; lia.
  - cbn [char_in]. now rewrite pretty_N_char_space.
Qed.

Lemma pretty_N_space (x : N) : char_in " " (pretty x) = false.
Proof.
  unfold pretty, pretty_N. case_decide; [reflexivity |]. now apply pretty_N_go_space.
Qed.

Lemma pretty_Z_space (z : Z) : char_in " " (pretty z) = false.
Proof.
  destruct z as [| p | p]; [reflexivity | apply pretty_N_space |].
  unfold pretty, pretty_Z. rewrite char_in_app. cbn [char_in Ascii.eqb orb].
  apply pretty_N_space.
Qed.

(** X13. The search URLs of both scrapers never hold a space, whatever the
    query, the location and the page are. *)
Theorem search_urls_space_free (query : string) (location : option string) (page : Z) :
  PyStr.contains " " (indeed_build_search_url query location page) = false /\
  PyStr.contains " " (linkedin_build_search_url query location page) = false.
Proof.
  rewrite !contains_char.
  unfold indeed_build_search_url, linkedin_build_search_url.
  assert (Hplus : forall s, char_in " " (PyStr.replace " " "+" s) = false)
    by (intros s; now apply replace_space).
  assert (Hpct : forall s, char_in " " (PyStr.replace " " "%20" s) = false)
    by (intros s; now apply replace_space).
  split.
  - destruct location as [l |]; [destruct (PyNum.nonempty l) |];
      destruct (0 <? page);
      rewrite ?char_in_app, ?Hplus, ?pretty_Z_space; reflexivity.
  - destruct location as [l |]; [destruct (PyNum.nonempty l) |];
      destruct (0 <? page);
      rewrite ?char_in_app, ?Hpct, ?pretty_Z_space; reflexivity.
Qed.

(** ** The bounds of an estimate *)

(** X14. The estimate [analyze_salary_range] returns is zero, or its average
    lies between 10000 and 1000000, its minimum is at least 9000 and its
    maximum at most 1100000. *)
Theorem estimate_bounds (salary_text : pyval) :
  let r := analyze_salary_range salary_text in
  r = zero_estimate \/
  (9000 <= min_salary r /\ max_salary r <= 1100000 /\
   10000 <= average_salary r <= 1000000)%Q.
Proof.
  intros r. destruct (estimate_order salary_text) as [Hz | (H1 & _ & _ & H4 & H5)];
    [now left | right]. fold r in H1, H4, H5. auto.
Qed.

(** ** The salary line of the dashboard *)

(** The line as a function of the estimate. *)
Lemma listing_salary_line_unfold (j : job) :
  let r := analyze_salary_range (py_get "salary_range" PyNone j) in
  listing_salary_line j =
    if Qeq_bool (min_salary r) (max_salary r) then
      if Qlt_le_dec 0 (average_salary r)
      then Ok (Some (SingleSalary (average_salary r)))
      else Ok None
    else Ok (Some (SalaryRange (min_salary r) (max_salary r))).
Proof.
  unfold listing_salary_line, py_item, py_get.
  destruct (j !! "salary_range") as [v |]; cbn [from_option id]; [| reflexivity].
  destruct (truthy v) eqn:Hv; [reflexivity |].
  destruct v as [| z | text | truth other]; try reflexivity.
  destruct text; [reflexivity | discriminate].
Qed.

Lemma Qeq_bool_false (x y : Q) : (x < y)%Q -> Qeq_bool x y = false.
Proof.
  intros H. destruct (Qeq_bool x y) eqn:E; [| reflexivity].
  apply Qeq_bool_iff in E. lra.
Qed.

(** The synthetic range of one figure is a proper range. *)
Lemma single_figure_spread (N : Q) :
  representable N -> (10000 <= N <= 1000000)%Q ->
  (0 < PyNum.round2 (PyNum.fmul N (PyNum.literal (9 # 10)))
     < PyNum.round2 (PyNum.fmul N (PyNum.literal (11 # 10))))%Q.
Proof.
  intros Hr HN.
  destruct (point_spread N Hr HN) as [(H9 & _ & _ & _) (k & Hk & Hlow & Hhigh)].
  set (low := PyNum.fmul N (PyNum.literal (9 # 10))) in *.
  set (high := PyNum.fmul N (PyNum.literal (11 # 10))) in *.
  assert (H0 : (0 <= 9000)%Q) by lra. assert (Hl0 : (0 <= low)%Q) by lra.
  assert (Hk0 : (0 <= inject_Z (k + 1))%Q) by (rewrite <- (Zle_Qle 0); lia).
  pose proof (round2_mono 9000 low H0 H9) as Ha.
  pose proof (round2_mono low (inject_Z k) Hl0 Hlow) as Hb.
  pose proof (round2_mono (inject_Z (k + 1)) high Hk0 Hhigh) as Hc.
  rewrite round2_Z in Hb by lia. rewrite round2_Z in Hc by lia.
  change 9000%Q with (inject_Z 9000) in Ha at 1. rewrite round2_Z in Ha by lia.
  change (inject_Z 9000) with 9000%Q in Ha.
  rewrite inject_Z_plus in Hc. change (inject_Z 1) with 1%Q in Hc. lra.
Qed.

(** X15. For every listing the dashboard settles its salary line without
    failing.  It writes none exactly when the [salary_range] parses to the
    zero estimate; a range line always has 0 < low < high; and a
    [salary_range] that yields one annual figure N gets the range line from
    round(N * 0.9, 2) to round(N * 1.1, 2), never the single-salary line. *)
Theorem listing_salary_line_spec (j : job) :
  (exists line, listing_salary_line j = Ok line) /\
  (listing_salary_line j = Ok None <->
   analyze_salary_range (py_get "salary_range" PyNone j) = zero_estimate) /\
  (forall low high : Q,
      listing_salary_line j = Ok (Some (SalaryRange low high)) ->
      (0 < low < high)%Q) /\
  (forall (text : string) (N : Q),
      j !! "salary_range" = Some (PyString text) -> text <> "" ->
      salary_numbers text = Ok [N] ->
      listing_salary_line j =
        Ok (Some (SalaryRange
                    (PyNum.round2 (PyNum.fmul N (PyNum.literal (9 # 10))))
                    (PyNum.round2 (PyNum.fmul N (PyNum.literal (11 # 10))))))).
Proof.
  pose proof (listing_salary_line_unfold j) as Hline. cbv zeta in Hline.
  pose proof (estimate_order (py_get "salary_range" PyNone j)) as Horder.
  cbv zeta in Horder.
  set (r := analyze_salary_range (py_get "salary_range" PyNone j)) in *.
  split; [| split; [| split]].
  - rewrite Hline. destruct (Qeq_bool _ _); [destruct (Qlt_le_dec _ _) |]; eauto.
  - rewrite Hline. destruct Horder as [Hz | (H1 & H2 & H3 & H4 & H5)].
    + rewrite Hz. cbn. tauto.
    + split.
      * destruct (Qeq_bool _ _); [| discriminate].
        destruct (Qlt_le_dec 0 (average_salary r)); [discriminate |]. exfalso. lra.
      * intros Hz. rewrite Hz in H1. cbn in H1. exfalso. lra.
  - intros low high. rewrite Hline. destruct Horder as [Hz | (H1 & H2 & H3 & H4 & H5)].
    + rewrite Hz. cbn. discriminate.
    + destruct (Qeq_bool (min_salary r) (max_salary r)) eqn:E;
        [destruct (Qlt_le_dec 0 (average_salary r)); discriminate |].
      intros [= <- <-]. split; [lra |].
      destruct (Qlt_le_dec (min_salary r) (max_salary r)) as [Hlt | Hge]; [exact Hlt |].
      assert (Heq : (min_salary r == max_salary r)%Q) by lra.
      apply Qeq_bool_iff in Heq. congruence.
  - intros text N Hj Htext Hn.
    pose proof (salary_numbers_spec _ _ Hn) as Hrange. rewrite Forall_forall in Hrange.
    destruct (Hrange N) as [Hr HN]; [apply list_elem_of_singleton; reflexivity |].
    rewrite Hline. subst r. unfold py_get. rewrite Hj. cbn [from_option id].
    rewrite (analyze_of_numbers _ _ Htext Hn). cbn [min_salary max_salary average_salary].
    rewrite Qeq_bool_false; [reflexivity |]. now apply single_figure_spread.
Qed.

(** ** Texts without digits *)

Lemma salary_numbers_no_digit (text : string) :
  no_digit text = true -> salary_numbers text = Ok [].
Proof.
  intros H. unfold salary_numbers.
  pose proof (no_digit_apply_marker time_multipliers _ (no_digit_clean _ H)) as H1.
  destruct (apply_marker time_multipliers (clean text)) as [tm c1]. cbn [snd] in H1.
  pose proof (no_digit_apply_marker multipliers _ H1) as H2.
  destruct (apply_marker multipliers c1) as [mm c2]. cbn [snd] in H2.
  unfold SalaryPattern.findall. now rewrite (findall_no_digit c2 O H2).
Qed.

(** X16. A salary text in which the pattern [\d] matches no character, that
    is, a text without any decimal digit, gets the zero estimate. *)
Theorem no_digit_zero_estimate (text : string) :
  no_digit text = true -> analyze_salary_range (PyString text) = zero_estimate.
Proof.
  intros H. destruct text as [| c text]; [reflexivity |].
  assert (Htext : String c text <> "") by discriminate.
  now rewrite (analyze_of_numbers _ _ Htext (salary_numbers_no_digit _ H)).
Qed.

Lemma no_digit_zero_estimate_witness :
  analyze_salary_range (PyString "Negotiable, DOE") = zero_estimate.
Proof.
  apply (no_digit_zero_estimate "Negotiable, DOE"). vm_compute. reflexivity.
Defined.

(** ** Bounds of the rollup *)

Lemma estimate_average_bounds (salary_text : pyval) :
  (0 < average_salary (analyze_salary_range salary_text))%Q ->
  (10000 <= average_salary (analyze_salary_range salary_text) <= 1000000)%Q.
Proof.
  intros Hpos. destruct (estimate_order salary_text) as [Hz | (_ & _ & _ & _ & H)].
  - rewrite Hz in Hpos. cbn in Hpos. lra.
  - exact H.
Qed.

Lemma collected_averages_bounds (jobs : list job) :
  Forall (fun a => (10000 <= a <= 1000000)%Q) (collected_averages jobs).
Proof.
  unfold collected_averages. induction jobs as [| j jobs IH]; cbn [flat_map]; [constructor |].
  apply Forall_app. split; [| exact IH].
  assert (Hone : forall v, Forall (fun a => (10000 <= a <= 1000000)%Q)
            (if Qlt_le_dec 0 (average_salary (analyze_salary_range v))
             then [average_salary (analyze_salary_range v)] else [])).
  { intros v. destruct (Qlt_le_dec 0 _) as [Hpos | _]; [| constructor].
    constructor; [now apply estimate_average_bounds | constructor]. }
  unfold listing_estimate.
  destruct (j !! "salary_range") as [v |]; [destruct (truthy v); [apply Hone |] |];
    destruct (j !! "salary") as [v' |]; cbn [fmap option_fmap option_map];
    (apply Hone || constructor).
Qed.

(** X17. [get_salary_insights] always returns statistics, and either all of
    them are zero or 10000 <= min <= median <= max <= 1000000.  (The average
    is a rounded quotient of a rounded sum and need not lie between min and
    max.) *)
Theorem salary_statistics_ordered (py_sum : list Q -> Q) (jobs : list job) :
  exists stats,
    get_salary_insights py_sum jobs = Ok stats /\
    (stats = zero_statistics \/
     (10000 <= stat_min_salary stats /\
      stat_min_salary stats <= stat_median_salary stats <= stat_max_salary stats /\
      stat_max_salary stats <= 1000000)%Q).
Proof.
  unfold get_salary_insights. rewrite collect_salaries_spec. cbn [app].
  pose proof (collected_averages_bounds jobs) as Hbounds.
  destruct (collected_averages jobs) as [| first rest] eqn:Hc; [eauto |].
  set (collected := first :: rest) in *.
  assert (Hne : collected <> []) by discriminate.
  destruct (py_min_spec collected Hne) as (lo & -> & Hlo_in & Hlo).
  destruct (py_max_spec collected Hne) as (hi & -> & Hhi_in & Hhi).
  assert (Hlen : (length collected / 2 < length (PyNum.py_sorted collected))%nat).
  { rewrite (Permutation_length (py_sorted_perm collected)).
    apply Nat.div_lt; [cbn; lia | lia]. }
  apply lookup_lt_is_Some in Hlen as [median Hmedian].
  unfold py_index. rewrite Hmedian. unfold mbind, result_bind.
  eexists. split; [reflexivity |]. right.
  cbn [stat_min_salary stat_max_salary stat_average_salary stat_median_salary].
  assert (Hmed_in : median ∈ collected).
  { rewrite <- (py_sorted_perm collected). apply list_elem_of_lookup. eauto. }
  rewrite Forall_forall in Hbounds, Hlo, Hhi.
  pose proof (Hbounds _ Hlo_in). pose proof (Hbounds _ Hhi_in).
  pose proof (Hlo _ Hmed_in). pose proof (Hhi _ Hmed_in).
  repeat split; lra.
Qed.

(** ** Skill trends *)

Section SkillTrendFacts.

Variable nlp : string -> list string.


Lemma job_mentions_known (skill : string) (j : job) :
  job_mentions nlp skill j = true -> skill ∈ common_skills.
Proof.
  unfold job_mentions. destruct (description_text _) as [text | e]; [| discriminate].
  intros H. apply bool_decide_eq_true_1 in H.
  now apply (extract_skills_spec nlp) in H as [H _].
Qed.

Lemma filter_nonempty {A : Type} (f : A -> bool) (l : list A) :
  (1 <= length (List.filter f l))%nat -> exists a, In a l /\ f a = true.
Proof.
  destruct (List.filter f l) as [| a r] eqn:E; cbn [length]; [lia | intros _].
  exists a. apply filter_In. rewrite E. now left.
Qed.

(** X18. In the dict that [get_skill_trends] returns, every key is a skill
    of the vocabulary, and its count is at least one and at most the number
    of listings. *)
Theorem skill_trends_keys (jobs : list job) (trends : gmap string nat)
    (skill : string) (n : nat) :
  get_skill_trends nlp jobs = Ok trends ->
  trends !! skill = Some n ->
  skill ∈ common_skills /\ (1 <= n <= length jobs)%nat /\
  n = length (List.filter (job_mentions nlp skill) jobs).
Proof.
  unfold get_skill_trends.
  destruct (collect_skills nlp jobs []) as [all_skills | e] eqn:Hc;
    unfold mbind, result_bind; [| discriminate].
  intros [= <-]. rewrite Counter_lookup.
  case_bool_decide as Hin; [| discriminate]. intros [= <-].
  rewrite (collect_skills_count nlp _ _ _ skill Hc). cbn [count_occ].
  assert (Hpos : (1 <= count_occ string_dec all_skills skill)%nat).
  { apply list_elem_of_In, (count_occ_In string_dec) in Hin. lia. }
  rewrite (collect_skills_count nlp _ _ _ skill Hc) in Hpos. cbn [count_occ] in Hpos.
  pose proof (filter_length_le (job_mentions nlp skill) jobs) as Hle.
  destruct (filter_nonempty _ _ Hpos) as (j & _ & Hj).
  split; [exact (job_mentions_known _ _ Hj) |]. split; [lia | reflexivity].
Qed.


End SkillTrendFacts.

Lemma skill_trends_keys_witness :
  "python" ∈ common_skills /\ (1 <= 2 <= length example_jobs)%nat /\
  2%nat = length (List.filter (job_mentions whitespace_tokens "python") example_jobs).
Proof.
  apply (skill_trends_keys whitespace_tokens example_jobs example_trends "python" 2).
  - vm_compute. reflexivity.
  - vm_compute. reflexivity.
Defined.
